(** * Tasmota adapter: property synchronisation, channel probing and
      device composition

    A shallow embedding of [src/power-plug.ts] and of the light module
    (the classes PollingProperty, WritableProperty, OnOffProperty,
    ColorProperty, BrightnessProperty, ColorTemperatureProperty,
    ColorModeProperty and the four light devices).

    Asynchronous functions are modelled in a state-and-rejection monad:
    a computation takes the world (the object's fields, the debug log,
    the requests put on the wire, the rejections nobody handled) and
    settles either fulfilled or rejected.  An operation runs from its
    call to its settlement without another one in between.  The transport
    of [./api] is an oracle handed to every operation; [host] and
    [password] only select the device and are left out. *)

From Stdlib Require Import String Ascii List ZArith QArith Lia DecimalString DecimalNat.
From stdpp Require Import base strings list gmap sorting.

#[local] Set Warnings "-register-all".

Local Open Scope string_scope.
Local Open Scope list_scope.

(** ** JSON values and the JavaScript operators used on them *)

(** A JavaScript number: a parsed body holds finite ones only; the
    conversion of a colour temperature and the division that yields the
    channel width of a colour may yield the others. *)
Inductive number : Type :=
| NaN
| Infinite (negative : bool)
| Finite (q : Q).

Inductive json : Type :=
| JNull
| JBool (b : bool)
| JNum (n : number)
| JStr (s : string)
| JArr (items : list json)
| JObj (members : list (string * json)).

(** A JavaScript value read out of a parsed body: [None] is [undefined]. *)
Definition jsval : Type := option json.

Inductive error : Type :=
| TypeError
| NetworkError (msg : string)
| SyntaxError (msg : string)
| PropertyError (msg : string).

Inductive settled (A : Type) : Type :=
| Fulfilled (a : A)
| Rejected (e : error).
Arguments Fulfilled {A} a.
Arguments Rejected {A} e.

Fixpoint assoc (k : string) (ms : list (string * json)) : jsval :=
  match ms with
  | [] => None
  | (k', v) :: ms' => if String.eqb k k' then Some v else assoc k ms'
  end.

(** [j[k]] and [j.k] for the keys the adapter reads (POWER, POWERn, Color,
    CT, Dimmer, WARNING, Command), none of which is an own property of a
    string, a number, a boolean or an array.  Reading a property of [null]
    throws. *)
Definition member (k : string) (j : json) : settled jsval :=
  match j with
  | JNull => Rejected TypeError
  | JObj ms => Fulfilled (assoc k ms)
  | _ => Fulfilled None
  end.

(** [j?.k] *)
Definition member_opt (k : string) (j : json) : jsval :=
  match j with
  | JObj ms => assoc k ms
  | _ => None
  end.

(** Truthiness of a value. *)
Definition truthy (j : json) : bool :=
  match j with
  | JNull => false
  | JBool b => b
  | JNum NaN => false
  | JNum (Infinite _) => true
  | JNum (Finite q) => negb (Qeq_bool q 0)
  | JStr s => negb (String.eqb s EmptyString)
  | JArr _ | JObj _ => true
  end.

Definition truthy_val (v : jsval) : bool :=
  match v with
  | None => false
  | Some j => truthy j
  end.

(** [v === s] for a string literal [s]. *)
Definition strict_eq_str (v : jsval) (s : string) : bool :=
  match v with
  | Some (JStr s') => String.eqb s' s
  | _ => false
  end.

(** [ToString(j)] is the string ON.  A number prints as digits, a sign,
    a point and an exponent, or as NaN or Infinity; a boolean as true or
    false; an object as [object Object]; an array prints its items joined
    by commas, [null] as the empty string: only a one-item array around
    something that prints as ON prints as ON. *)
Fixpoint prints_as_ON (j : json) : bool :=
  match j with
  | JStr s => String.eqb s "ON"
  | JArr (x :: nil) => prints_as_ON x
  | _ => false
  end.

(** [j] inside [n] one-item arrays. *)
Fixpoint wrapped (n : nat) (j : json) : json :=
  match n with
  | O => j
  | S n' => JArr [wrapped n' j]
  end.

(** Conversion of [j] to a primitive throws.  A parsed object converts
    through [Object.prototype.toString] unless it has a member named
    toString of its own, which is not callable and leaves no method that
    yields a primitive; an array converts by joining the conversions of
    its items. *)
Fixpoint conversion_throws (j : json) : bool :=
  match j with
  | JObj ms => match assoc "toString" ms with Some _ => true | None => false end
  | JArr items => existsb conversion_throws items
  | _ => false
  end.

(** [v] is [undefined], [null], a boolean, a number or a string. *)
Definition primitive (v : jsval) : bool :=
  match v with
  | Some (JArr _) | Some (JObj _) => false
  | _ => true
  end.

(** [v == 'ON']: [undefined], [null], booleans and numbers are never
    loosely equal to a string that is not numeric; a string compares by
    content; an object or array is converted to a primitive first, which
    may throw. *)
Definition loose_eq_ON (v : jsval) : settled bool :=
  match v with
  | Some (JStr s) => Fulfilled (String.eqb s "ON")
  | Some (JArr items) =>
      if conversion_throws (JArr items) then Rejected TypeError
      else Fulfilled (prints_as_ON (JArr items))
  | Some (JObj ms) =>
      if conversion_throws (JObj ms) then Rejected TypeError else Fulfilled false
  | _ => Fulfilled false
  end.

(** Template literal of a channel number. *)
Definition string_of_nat (n : nat) : string :=
  NilEmpty.string_of_uint (Nat.to_uint n).

(** ** The world and the monad of asynchronous functions *)

(** Payload of a command: a string, or the template literal of a value. *)
Inductive payload : Type :=
| PStr (s : string)
| PFmt (v : jsval).

Inductive request : Type :=
| Get (command : string)
| Post (command : string) (p : payload).

(** Lines written through [debug]. *)
Inductive log_line : Type :=
| LogSetValue
| LogCouldNotSetStatus (statusText : string) (status : Z)
| LogWarning (w : json)
| LogCommand (c : json)
| LogCouldNotSetValue (e : error)
| LogChanged (b : bool)
| LogDetected (channel : nat)
| LogNotAvailable (channel : nat) (body : json).

Record response : Type := Response {
  status : Z;
  statusText : string;
  json_body : settled json  (* what [.json()] settles to *)
}.

Record transport : Type := Transport {
  getStatus : string -> settled response;
  setStatus : string -> payload -> settled response
}.

Record world (O : Type) : Type := World {
  self : O;                    (* the fields of [this] *)
  console : list log_line;     (* lines handed to [debug], oldest first *)
  wire : list request;         (* requests issued, oldest first *)
  unhandled : list error       (* rejections of promises nobody awaits *)
}.
Arguments World {O} _ _ _ _.
Arguments self {O} _.
Arguments console {O} _.
Arguments wire {O} _.
Arguments unhandled {O} _.

Definition Async (O A : Type) : Type := world O -> settled A * world O.

Definition ret {O A} (a : A) : Async O A := fun w => (Fulfilled a, w).

Definition throw {O A} (e : error) : Async O A := fun w => (Rejected e, w).

Definition bind {O A B} (m : Async O A) (k : A -> Async O B) : Async O B :=
  fun w =>
    match m w with
    | (Fulfilled a, w') => k a w'
    | (Rejected e, w') => (Rejected e, w')
    end.

Notation "x <- m ;; k" := (bind m (fun x => k))
  (at level 100, m at next level, right associativity).
Notation "m ;;; k" := (bind m (fun _ => k))
  (at level 100, right associativity).

(** [try { m } catch (e) { h e }] around awaited code. *)
Definition try_catch {O A} (m : Async O A) (h : error -> Async O A) : Async O A :=
  fun w =>
    match m w with
    | (Fulfilled a, w') => (Fulfilled a, w')
    | (Rejected e, w') => h e w'
    end.

(** A call whose promise is dropped: the callee runs, the caller goes on
    whatever it settles to, and a rejection is left unhandled. *)
Definition detach {O A} (m : Async O A) : Async O unit :=
  fun w =>
    match m w with
    | (Fulfilled _, w') => (Fulfilled tt, w')
    | (Rejected e, w') =>
        (Fulfilled tt,
         World (self w') (console w') (wire w') (unhandled w' ++ [e]))
    end.

(** [await p] for an already settled promise. *)
Definition await {O A} (p : settled A) : Async O A := fun w => (p, w).

Definition debug {O} (l : log_line) : Async O unit :=
  fun w => (Fulfilled tt, World (self w) (console w ++ [l]) (wire w) (unhandled w)).

Definition get_self {O} : Async O O := fun w => (Fulfilled (self w), w).

Definition call_getStatus {O} (net : transport) (command : string) : Async O response :=
  fun w =>
    (getStatus net command,
     World (self w) (console w) (wire w ++ [Get command]) (unhandled w)).

Definition call_setStatus {O} (net : transport) (command : string) (p : payload)
  : Async O response :=
  fun w =>
    (setStatus net command p,
     World (self w) (console w) (wire w ++ [Post command p]) (unhandled w)).

(** An operation that leaves the object, the wire and the unhandled
    rejections as they are and at most writes to the log. *)
Definition quiet {O A} (m : Async O A) : Prop :=
  forall w, exists x c, m w = (x, World (self w) c (wire w) (unhandled w)).

(** ** The Property base class of the gateway

    [Property] comes from the gateway-addon package.  Its cache is the
    field [value]; [setCachedValueAndNotify] stores a value and asks the
    device to notify, and [notifications] lists the values it was handed,
    oldest first.  [Property.setValue] validates a written value against
    the property description and either rejects or caches it: the adapter
    only calls it, so it is a variable of the sections below. *)

Record property (T : Type) : Type := Property {
  value : option T;
  notifications : list T
}.
Arguments Property {T} _ _.
Arguments value {T} _.
Arguments notifications {T} _.

(** An object: the base-class part and the fields its own class adds. *)
Record object (T F : Type) : Type := Object {
  base : property T;
  fields : F
}.
Arguments Object {T F} _ _.
Arguments base {T F} _.
Arguments fields {T F} _.

Definition base_setValue_type : Type :=
  forall T : Type, T -> property T -> settled unit * property T.

Definition setCachedValueAndNotify {T F} (v : T) : Async (object T F) unit :=
  fun w =>
    let o := self w in
    (Fulfilled tt,
     World (Object (Property (Some v) (notifications (base o) ++ [v])) (fields o))
           (console w) (wire w) (unhandled w)).

(** [super.setValue(value)] run on the base part of [this]. *)
Definition call_super_setValue {T F} (super_setValue : base_setValue_type) (v : T)
  : Async (object T F) unit :=
  fun w =>
    let o := self w in
    let (r, b) := super_setValue T v (base o) in
    (r, World (Object b (fields o)) (console w) (wire w) (unhandled w)).

Definition put_fields {T F} (f : F) : Async (object T F) unit :=
  fun w =>
    (Fulfilled tt,
     World (Object (base (self w)) f) (console w) (wire w) (unhandled w)).

(** The base [setValue] accepts [v] for a property in state [b]: it
    resolves and leaves [v] in the cache. *)
Definition caches (super_setValue : base_setValue_type) {T} (v : T) (b : property T)
  : Prop :=
  exists b', super_setValue T v b = (Fulfilled tt, b') /\ value b' = Some v.

(** A value placed in a template literal is converted to a string. *)
Definition interpolate {O} (j : json) : Async O unit :=
  if conversion_throws j then throw TypeError else ret tt.

(** The inspection of a command's result, the same statements in every
    write path: a status other than 200 is logged; otherwise the body is
    parsed and a WARNING, and with it a Command, is logged. *)
Definition inspect_result {O} (result : response) : Async O unit :=
  if negb (Z.eqb (status result) 200) then
    debug (LogCouldNotSetStatus (statusText result) (status result))
  else
    json <- await (json_body result) ;;
    warning <- await (member "WARNING" json) ;;
    match warning with
    | Some w =>
        if truthy w then
          interpolate w ;;;
          debug (LogWarning w) ;;;
          command <- await (member "Command" json) ;;
          match command with
          | Some c =>
              if truthy c then (interpolate c ;;; debug (LogCommand c)) else ret tt
          | None => ret tt
          end
        else ret tt
    | None => ret tt
    end.

(** ** JavaScript strings *)

(** [s.substring(a, b)] for [a <= b]: both ends are clamped to the length. *)
Definition js_substring (a b : nat) (s : string) : string :=
  String.substring a (b - a) s.

(** [s.repeat(3)] *)
Definition repeat3 (s : string) : string := s +:+ s +:+ s.

(** ** JavaScript numbers *)
(** Numbers are the rationals with the two infinities and NaN: the
    doubles of the platform, with their arithmetic taken as exact. *)

(** [n == 0] for a number [n] *)
Definition is_zero (n : number) : bool :=
  match n with
  | Finite q => Qeq_bool q 0
  | _ => false
  end.

(** [n > k] for a number [n] and a literal [k] *)
Definition above (k : Q) (n : number) : bool :=
  match n with
  | NaN => false
  | Infinite negative => negb negative
  | Finite q => negb (Qle_bool q k)
  end.

(** The same comparison as a proposition. *)
Definition wider_than (k : Q) (n : number) : Prop :=
  match n with
  | NaN => False
  | Infinite negative => negative = false
  | Finite q => (k < q)%Q
  end.

(** [n / 2] *)
Definition halve (n : number) : number :=
  match n with
  | Finite q => Finite (Qred (q / 2)%Q)
  | _ => n
  end.

(** The number of a count. *)
Definition of_count (n : nat) : number := Finite (inject_Z (Z.of_nat n)).

(** Two numbers are the same number, whatever fraction writes them. *)
Definition same_number (m n : number) : Prop :=
  match m, n with
  | NaN, NaN => True
  | Infinite a, Infinite b => a = b
  | Finite p, Finite q => (p == q)%Q
  | _, _ => False
  end.

(** ** power-plug.ts: the on/off property of a plug and channel probing *)

Module Plug.

(** The fields [OnOffProperty] adds to [Property]. *)
Record plug_fields : Type := PlugFields {
  lastState : option bool;   (* [lastState?: boolean] *)
  channel : string           (* empty, or the channel number *)
}.

Definition OnOffProperty : Type := object bool plug_fields.

Section Write.
Variable super_setValue : base_setValue_type.

(** [OnOffProperty.setValue] *)
Definition setValue (net : transport) (value : bool) : Async OnOffProperty unit :=
  try_catch
    (debug LogSetValue ;;;
     call_super_setValue super_setValue value ;;;
     let status := if value then "ON" else "OFF" in
     this <- get_self ;;
     result <- call_setStatus net ("Power" +:+ channel (fields this)) (PStr status) ;;
     inspect_result result)
    (fun e => debug (LogCouldNotSetValue e)).

End Write.

(** [this.lastState != value]: [undefined] differs from both booleans. *)
Definition differs (last : option bool) (value : bool) : bool :=
  match last with
  | None => true
  | Some b => negb (Bool.eqb b value)
  end.

(** [OnOffProperty.updateValue] *)
Definition updateValue (net : transport) : Async OnOffProperty unit :=
  this <- get_self ;;
  response <- call_getStatus net ("Power" +:+ channel (fields this)) ;;
  result <- await (json_body response) ;;
  power <- await (member "POWER" result) ;;
  value <- await (loose_eq_ON power) ;;
  this <- get_self ;;
  if differs (lastState (fields this)) value then
    (put_fields (PlugFields (Some value) (channel (fields this))) ;;;
     setCachedValueAndNotify value ;;;
     debug (LogChanged value))
  else ret tt.

(** What [PowerPlug.poll] does to one property over successive ticks of
    the timer: it calls [updateValue] and drops the promise.  Each tick
    meets the transport as it answers then. *)
Fixpoint poll_cycles (ticks : list transport) : Async OnOffProperty unit :=
  match ticks with
  | [] => ret tt
  | net :: later => detach (updateValue net) ;;; poll_cycles later
  end.

(** The boolean a tick reads for the channel [ch], when the status
    request, the parsing of its body, the access to POWER and the
    comparison all succeed. *)
Definition reading (net : transport) (ch : string) : option bool :=
  match getStatus net ("Power" +:+ ch) with
  | Fulfilled r =>
      match json_body r with
      | Fulfilled j =>
          match member "POWER" j with
          | Fulfilled v =>
              match loose_eq_ON v with
              | Fulfilled b => Some b
              | Rejected _ => None
              end
          | Rejected _ => None
          end
      | Rejected _ => None
      end
  | Rejected _ => None
  end.

(** A property as its constructor leaves it. *)
Definition fresh (ch : string) : world OnOffProperty :=
  World (Object (Property None []) (PlugFields None ch)) [] [] [].

(** [OnOffProperty.isAvailable] *)
Definition isAvailable (net : transport) (channel : nat) : Async unit bool :=
  let command := "POWER" +:+ string_of_nat channel in
  result <- call_getStatus net command ;;
  json <- await (json_body result) ;;
  status <- await (member command json) ;;
  let available := strict_eq_str status "ON" || strict_eq_str status "OFF" in
  (if available then debug (LogDetected channel)
   else debug (LogNotAvailable channel json)) ;;;
  ret available.

(** The loop [for (let i = 1; i < 10; i++)]; [n] counts the iterations
    left, nine at the start. *)
Fixpoint probe_loop (net : transport) (n i : nat) (channels : list nat)
  : Async unit (list nat) :=
  match n with
  | O => ret channels
  | S n' =>
      available <- isAvailable net i ;;
      probe_loop net n' (S i) (if available then channels ++ [i] else channels)
  end.

(** [OnOffProperty.getAvailableChannels] *)
Definition getAvailableChannels (net : transport) : Async unit (list nat) :=
  probe_loop net (10 - 1) 1 [].

(** The status query the probe of index [i] puts on the wire. *)
Definition power_query (i : nat) : request := Get ("POWER" +:+ string_of_nat i).

(** What the probe of index [i] finds in the body the stub gives for
    [POWERi]: the field [POWERi] is the string ON or the string OFF. *)
Definition reports_on_off (net : transport) (i : nat) : bool :=
  let command := "POWER" +:+ string_of_nat i in
  match getStatus net command with
  | Fulfilled r =>
      match json_body r with
      | Fulfilled (JObj ms) =>
          match assoc command ms with
          | Some (JStr s) => String.eqb s "ON" || String.eqb s "OFF"
          | _ => false
          end
      | _ => false
      end
  | Rejected _ => false
  end.

(** The stub answers the query for [POWERi] with a body that parses to
    something other than [null]. *)
Definition answers (net : transport) (i : nat) : Prop :=
  exists r j,
    getStatus net ("POWER" +:+ string_of_nat i) = Fulfilled r /\
    json_body r = Fulfilled j /\ j <> JNull.

End Plug.

(** ** The light module *)

Module Light.

(** [manifest.moziot.config], with the experimental flag the light reads
    (a boolean in the schema of manifest.json). *)
Record experimental_config : Type := Experimental {
  useWhiteLedInColorMode : bool
}.

Record config : Type := Config {
  experimental : option experimental_config
}.

(** [PollingProperty.update] *)
Definition update {T F} (v : T) : Async (object T F) unit :=
  setCachedValueAndNotify v.

(** The callback [() => this.poll()] that [PollingProperty.startPolling]
    hands to [setInterval]: the timer drops the promise it returns. *)
Definition timer_tick {O} (poll : Async O unit) : Async O unit := detach poll.

(** [result?.Color || ""]: the Color of the body when it is truthy,
    whatever it is, and the empty string otherwise.  The declared type
    [string] is not checked when the code runs. *)
Definition color_or_empty (result : json) : json :=
  match member_opt "Color" result with
  | Some j => if truthy j then j else JStr EmptyString
  | None => JStr EmptyString
  end.

(** [color.length]: the length of a string, the number of items of an
    array, the member named length of a parsed object, and [undefined]
    on a number or a boolean; reading it from [null] throws. *)
Definition length_of (color : json) : settled jsval :=
  match color with
  | JNull => Rejected TypeError
  | JBool _ | JNum _ => Fulfilled None
  | JStr s => Fulfilled (Some (JNum (of_count (String.length s))))
  | JArr items => Fulfilled (Some (JNum (of_count (List.length items))))
  | JObj ms => Fulfilled (assoc "length" ms)
  end.

Section Properties.
Variable super_setValue : base_setValue_type.

(** The conversions of ./ct-conversion, a file that is not among the
    sources: pure functions of a number, taken as total. *)
Variables kelvinToTasmota tasmotaToKelvin : jsval -> jsval.

(** The case mapping of the platform behind [String.prototype.toLowerCase]:
    it maps the characters of every script and may change the length of a
    string. *)
Variable lowerCase : string -> string.

(** [s.toLowerCase()]: the empty string has no character to map. *)
Definition toLowerCase (s : string) : string :=
  match s with
  | EmptyString => EmptyString
  | _ => lowerCase s
  end.

(** The conversion of a string, an array or an object to a number by the
    platform: it parses the numeral a string holds, and it throws where
    the conversion of an object to a primitive does. *)
Variable ToNumber : json -> settled number.

(** The conversion to a number that the division applies to its left
    operand. *)
Definition to_number (v : jsval) : settled number :=
  match v with
  | None => Fulfilled NaN
  | Some JNull => Fulfilled (Finite 0%Q)
  | Some (JBool b) => Fulfilled (Finite (if b then 1%Q else 0%Q))
  | Some (JNum n) => Fulfilled n
  | Some j => ToNumber j
  end.

(** [color.length / 2] *)
Definition half_length (color : json) : settled number :=
  match length_of color with
  | Fulfilled length =>
      match to_number length with
      | Fulfilled n => Fulfilled (halve n)
      | Rejected e => Rejected e
      end
  | Rejected e => Rejected e
  end.

(** [WritableProperty.setValue]: [this.set(value)] is called and its
    promise dropped. *)
Definition setValue {T F} (set : T -> Async (object T F) unit) (value : T)
  : Async (object T F) unit :=
  try_catch
    (debug LogSetValue ;;;
     call_super_setValue super_setValue value ;;;
     detach (set value))
    (fun e => debug (LogCouldNotSetValue e)).

(** *** OnOffProperty *)

Definition OnOff_set (net : transport) (value : bool) : Async (object bool unit) unit :=
  let status := if value then "ON" else "OFF" in
  result <- call_setStatus net "Power" (PStr status) ;;
  inspect_result result.

Definition OnOff_poll (net : transport) : Async (object bool unit) unit :=
  response <- call_getStatus net "Power" ;;
  result <- await (json_body response) ;;
  power <- await (member "POWER" result) ;;
  on <- await (loose_eq_ON power) ;;
  update on.

(** *** ColorProperty; its one field is [channels] *)

Definition Color_set (manifest : config) (net : transport) (value : string)
  : Async (object string number) unit :=
  this <- get_self ;;
  let value :=
    match experimental manifest with
    | Some e =>
        if useWhiteLedInColorMode e then
          let grey := "#" +:+ repeat3 (js_substring 1 3 value) in
          if above 3 (fields this) && String.eqb value grey
          then "#000000" +:+ js_substring 1 3 value
          else value
        else value
    | None => value
    end in
  result <- call_setStatus net "Color" (PStr value) ;;
  inspect_result result.

(** The width is stored before [color.substring] is called: only a
    string has that method, and the call throws on everything else. *)
Definition Color_poll (net : transport) : Async (object string number) unit :=
  response <- call_getStatus net "Color" ;;
  result <- await (json_body response) ;;
  let color := color_or_empty result in
  this <- get_self ;;
  (if is_zero (fields this)
   then half <- await (half_length color) ;; put_fields half
   else ret tt) ;;;
  match color with
  | JStr color =>
      let rgbColor := js_substring 0 6 color in
      let rgbColor :=
        if String.eqb rgbColor "000000" && Nat.eqb (String.length color) 8
        then repeat3 (js_substring 6 8 color)
        else rgbColor in
      update ("#" +:+ toLowerCase rgbColor)
  | _ => throw TypeError
  end.

(** The constructor ends with [this.channels = 0]. *)
Definition Color_new : world (object string number) :=
  World (Object (Property None []) (Finite 0%Q)) [] [] [].

(** *** BrightnessProperty *)

Definition Brightness_set (net : transport) (value : jsval) : Async (object jsval unit) unit :=
  result <- call_setStatus net "Dimmer" (PFmt value) ;;
  inspect_result result.

Definition Brightness_poll (net : transport) : Async (object jsval unit) unit :=
  response <- call_getStatus net "Dimmer" ;;
  result <- await (json_body response) ;;
  dimmer <- await (member "Dimmer" result) ;;
  update dimmer.

(** *** ColorTemperatureProperty *)

Definition ColorTemperature_set (net : transport) (value : jsval)
  : Async (object jsval unit) unit :=
  result <- call_setStatus net "CT" (PFmt (kelvinToTasmota value)) ;;
  inspect_result result.

Definition ColorTemperature_poll (net : transport) : Async (object jsval unit) unit :=
  response <- call_getStatus net "CT" ;;
  result <- await (json_body response) ;;
  if truthy result then update (tasmotaToKelvin (member_opt "CT" result))
  else ret tt.

(** *** ColorModeProperty *)

Definition ColorMode_poll (net : transport) : Async (object string unit) unit :=
  response <- call_getStatus net "Color" ;;
  result <- await (json_body response) ;;
  color <- await (member "Color" result) ;;
  match color with
  | Some (JStr c) =>
      let rgb := js_substring 0 6 c in
      if negb (String.eqb rgb "000000") then update "color" else update "temperature"
  | _ => throw TypeError
  end.

End Properties.

End Light.

(** ** The light devices *)

Module Device.

Inductive light : Type :=
| DimmableLight
| ColorTemperatureLight
| ColorLight
| ColorCtLight.

(** The [extends] clauses. *)
Definition parent (l : light) : option light :=
  match l with
  | DimmableLight => None
  | ColorTemperatureLight => Some DimmableLight
  | ColorLight => Some DimmableLight
  | ColorCtLight => Some ColorLight
  end.

Inductive property_class : Type :=
| OnOffProperty
| BrightnessProperty
| ColorProperty
| ColorTemperatureProperty
| ColorModeProperty.

(** The name each property class passes to [super(device, name, ...)]. *)
Definition name (p : property_class) : string :=
  match p with
  | OnOffProperty => "on"
  | BrightnessProperty => "brightness"
  | ColorProperty => "color"
  | ColorTemperatureProperty => "colorTemperature"
  | ColorModeProperty => "colorMode"
  end.

(** [addProperty]: [this.properties.set(property.name, property)] *)
Definition addProperty (p : property_class) (properties : gmap string property_class)
  : gmap string property_class :=
  <[name p := p]> properties.

(** The constructors, each after its [super(...)] call. *)
Definition DimmableLight_new : gmap string property_class :=
  addProperty BrightnessProperty (addProperty OnOffProperty ∅).

Definition ColorTemperatureLight_new : gmap string property_class :=
  addProperty ColorTemperatureProperty DimmableLight_new.

Definition ColorLight_new : gmap string property_class :=
  addProperty ColorProperty DimmableLight_new.

Definition ColorCtLight_new : gmap string property_class :=
  addProperty ColorModeProperty (addProperty ColorTemperatureProperty ColorLight_new).

Definition properties (l : light) : gmap string property_class :=
  match l with
  | DimmableLight => DimmableLight_new
  | ColorTemperatureLight => ColorTemperatureLight_new
  | ColorLight => ColorLight_new
  | ColorCtLight => ColorCtLight_new
  end.

(** What the scheduler sees: a device's [startPolling] body entered, and a
    timer registered by [setInterval(() => this.poll(), intervalMs)]. *)
Inductive event : Type :=
| Enter (layer : light)
| SetInterval (p : property_class) (intervalMs : Z).

(** [PollingProperty.startPolling] *)
Definition property_startPolling (p : property_class) (intervalMs : Z)
  (trace : list event) : list event :=
  trace ++ [SetInterval p intervalMs].

Definition DimmableLight_startPolling (intervalMs : Z) (trace : list event) : list event :=
  let trace := trace ++ [Enter DimmableLight] in
  let trace := property_startPolling OnOffProperty intervalMs trace in
  property_startPolling BrightnessProperty intervalMs trace.

Definition ColorTemperatureLight_startPolling (intervalMs : Z) (trace : list event)
  : list event :=
  let trace := trace ++ [Enter ColorTemperatureLight] in
  let trace := DimmableLight_startPolling intervalMs trace in
  property_startPolling ColorTemperatureProperty intervalMs trace.

Definition ColorLight_startPolling (intervalMs : Z) (trace : list event) : list event :=
  let trace := trace ++ [Enter ColorLight] in
  let trace := DimmableLight_startPolling intervalMs trace in
  property_startPolling ColorProperty intervalMs trace.

Definition ColorCtLight_startPolling (intervalMs : Z) (trace : list event) : list event :=
  let trace := trace ++ [Enter ColorCtLight] in
  let trace := ColorLight_startPolling intervalMs trace in
  let trace := property_startPolling ColorTemperatureProperty intervalMs trace in
  property_startPolling ColorModeProperty intervalMs trace.

(** Dynamic dispatch of [device.startPolling(intervalMs)]. *)
Definition startPolling (l : light) (intervalMs : Z) (trace : list event) : list event :=
  match l with
  | DimmableLight => DimmableLight_startPolling intervalMs trace
  | ColorTemperatureLight => ColorTemperatureLight_startPolling intervalMs trace
  | ColorLight => ColorLight_startPolling intervalMs trace
  | ColorCtLight => ColorCtLight_startPolling intervalMs trace
  end.

#[global] Instance light_eq_dec : EqDecision light.
Proof. solve_decision. Defined.

#[global] Instance property_class_eq_dec : EqDecision property_class.
Proof. solve_decision. Defined.

(** [a] is [l] or a class [l] extends, directly or not; [n] bounds the
    depth of the hierarchy. *)
Fixpoint is_layer_upto (n : nat) (a l : light) : bool :=
  bool_decide (a = l) ||
  match n, parent l with
  | S n', Some p => is_layer_upto n' a p
  | _, _ => false
  end.

Definition is_layer_of (a l : light) : bool := is_layer_upto 3 a l.

Fixpoint count_events (f : event -> bool) (trace : list event) : nat :=
  match trace with
  | [] => 0
  | e :: trace' => (if f e then 1 else 0) + count_events f trace'
  end.

(** How often the [startPolling] body of class [a] was entered. *)
Definition entered (a : light) (trace : list event) : nat :=
  count_events (fun e => match e with Enter l => bool_decide (l = a) | _ => false end) trace.

(** How many timers were registered for the property [p]. *)
Definition registered (p : property_class) (trace : list event) : nat :=
  count_events
    (fun e => match e with SetInterval q _ => bool_decide (q = p) | _ => false end) trace.

End Device.

(** ** How a transport can fail *)

(** The remote end answers every command with a status other than 200. *)
Definition refuses (net : transport) : Prop :=
  forall command p, exists r, setStatus net command p = Fulfilled r /\ status r <> 200%Z.

(** The status request for [command], or the parsing of its body, fails
    with [e]. *)
Definition read_fails (net : transport) (command : string) (e : error) : Prop :=
  getStatus net command = Rejected e
  \/ exists r, getStatus net command = Fulfilled r /\ json_body r = Rejected e.

(** ** Sample transports and states

    Stubs of the transport and states of properties on which the
    operations above are run. *)

Module Sample.

Definition ok_body (j : json) : settled response :=
  Fulfilled (Response 200 "OK" (Fulfilled j)).

Definition down {A} : settled A := Rejected (NetworkError "ECONNREFUSED").

(** A transport that answers every status query with the body [j]. *)
Definition always (j : json) : transport :=
  Transport (fun _ => ok_body j) (fun _ _ => ok_body j).

(** A transport with no device behind it. *)
Definition unreachable : transport :=
  Transport (fun _ => down) (fun _ _ => down).

(** A transport that refuses every command with status 500. *)
Definition refusing : transport :=
  Transport (fun _ => ok_body (JObj []))
            (fun _ _ => Fulfilled (Response 500 "Internal Server Error" (Fulfilled (JObj [])))).

(** A plug with five relays: POWER1 to POWER5 are reported, the body for
    POWER6 to POWER9 has no such field. *)
Definition five_relays : transport :=
  Transport
    (fun c =>
       if String.eqb c "POWER1" then ok_body (JObj [("POWER1", JStr "ON")])
       else if String.eqb c "POWER2" then ok_body (JObj [("POWER2", JStr "OFF")])
       else if String.eqb c "POWER3" then ok_body (JObj [("POWER3", JStr "OFF")])
       else if String.eqb c "POWER4" then ok_body (JObj [("POWER4", JStr "ON")])
       else if String.eqb c "POWER5" then ok_body (JObj [("POWER5", JStr "OFF")])
       else ok_body (JObj []))
    (fun _ _ => down).

(** The same plug when the query for POWER3 times out. *)
Definition third_times_out : transport :=
  Transport
    (fun c =>
       if String.eqb c "POWER3" then Rejected (NetworkError "ETIMEDOUT")
       else getStatus five_relays c)
    (fun _ _ => down).

(** The same plug when the body for POWER6 to POWER9 is [null]. *)
Definition null_after_five : transport :=
  Transport
    (fun c =>
       if existsb (String.eqb c) ["POWER1"; "POWER2"; "POWER3"; "POWER4"; "POWER5"]
       then getStatus five_relays c
       else ok_body JNull)
    (fun _ _ => down).

(** The base [setValue] of a property whose description accepts every
    value: it caches the value, notifies and resolves. *)
Definition accepting : base_setValue_type :=
  fun T v b => (Fulfilled tt, Property (Some v) (notifications b ++ [v])).

(** A stand-in for [tasmotaToKelvin] of ./ct-conversion, a file that is
    not among the sources: the reciprocal of a mired value, left
    unrounded, and NaN for what is not a number. *)
Definition reciprocal (v : jsval) : jsval :=
  match v with
  | Some (JNum (Finite q)) =>
      if Qeq_bool q 0 then Some (JNum (Infinite false))
      else Some (JNum (Finite (Qred (1000000 / q))))
  | _ => Some (JNum NaN)
  end.

Definition start : world unit := World tt [] [] [].

(** The channel of a plug with one relay: the empty string. *)
Definition single : string := EmptyString.

(** A light property caching [v], with no own fields. *)
Definition caching {T} (v : T) : world (object T unit) :=
  World (Object (Property (Some v) [v]) tt) [] [] [].

(** A colour property with the given channel width. *)
Definition colour_of_width (q : Q) : world (object string number) :=
  World (Object (Property None []) (Finite q)) [] [] [].

Definition lower_ascii (c : ascii) : ascii :=
  let n := nat_of_ascii c in
  if Nat.leb 65 n && Nat.leb n 90 then ascii_of_nat (n + 32) else c.

(** A stand-in for the case mapping of the platform: what it does on a
    string of ASCII characters, which the digits of a colour are. *)
Fixpoint lower_case (s : string) : string :=
  match s with
  | EmptyString => EmptyString
  | String c s' => String (lower_ascii c) (lower_case s')
  end.

(** A stand-in for the conversion of the platform to a number, for
    bodies in which it is not reached or meets no numeral. *)
Definition no_numeral (j : json) : settled number := Fulfilled NaN.

End Sample.

(** ** The timer of a polling property *)

Module Schedule.

(** The ticks of the timer that [PollingProperty.startPolling] sets: on
    each one the callback polls, against the transport as it answers
    then, and the promise is dropped. *)
Fixpoint ticks {O} (poll : transport -> Async O unit) (nets : list transport)
  : Async O unit :=
  match nets with
  | [] => ret tt
  | net :: later => Light.timer_tick (poll net) ;;; ticks poll later
  end.

End Schedule.

(** ** Further stubs *)

Module Stub.

(** The base [setValue] of a read-only property: it rejects and leaves the
    cache alone. *)
Definition read_only : base_setValue_type :=
  fun T v b => (Rejected (PropertyError "Read-only property"), b).

(** A transport that accepts every command: status 200 and the body [j]. *)
Definition accepting (j : json) : transport :=
  Transport (fun _ => Sample.ok_body j) (fun _ _ => Sample.ok_body j).

(** A plug's on/off property for channel [ch] whose last poll read [b]. *)
Definition polled (ch : string) (b : bool) : world Plug.OnOffProperty :=
  World (Object (Property (Some b) [b]) (Plug.PlugFields (Some b) ch)) [] [] [].

End Stub.

(** ** power-plug.ts: the plug device *)

Module PowerPlug.

(** A telemetry sample as [getData] and the table parser give it: a value
    and the symbol of its unit under each name.  The parser is not among
    the sources; a sample is taken at the type the plug declares for it. *)
Record Data : Type := MkData {
  data_value : jsval;
  symbol : string
}.

(** The members every object inherits; [data[k]] finds them when the
    sample has no entry of its own under [k]. *)
Definition inherited (k : string) : bool :=
  existsb (String.eqb k)
    ["constructor"; "toString"; "toLocaleString"; "valueOf"; "hasOwnProperty";
     "isPrototypeOf"; "propertyIsEnumerable"; "__proto__"; "__defineGetter__";
     "__defineSetter__"; "__lookupGetter__"; "__lookupSetter__"].

(** [data[k].value]: the value of an own entry, [undefined] for an
    inherited member, a TypeError when there is nothing under [k]. *)
Definition value_under (k : string) (data : gmap string Data) : settled jsval :=
  match data !! k with
  | Some d => Fulfilled (data_value d)
  | None => if inherited k then Fulfilled None else Rejected TypeError
  end.

(** The experimental flags the plug reads (booleans in manifest.json). *)
Record flags : Type := Flags {
  multiChannelRelay : bool;
  temperatureSensor : bool
}.

(** One entry of [onOffProperties]: the id and title given to the
    constructor of the property, and the property itself. *)
Record on_off : Type := OnOff {
  id : string;
  title : string;
  switch : Plug.OnOffProperty
}.

(** What the map [properties] points to: the objects are shared with the
    fields of the device. *)
Inductive reference : Type :=
| OnOffAt (index : nat)
| VoltageRef
| CurrentRef
| PowerRef
| TemperatureRef.

Record device : Type := Device {
  name : string;
  onOffProperties : list on_off;
  voltageProperty : option (property jsval);
  powerProperty : option (property jsval);
  currentProperty : option (property jsval);
  temperatureProperty : option (string * property jsval);  (* [dataName] and the property *)
  properties : gmap string reference
}.

(** Lines the device writes through [debug], and those of its properties. *)
Inductive line : Type :=
| OfProperty (l : log_line)
| LogCreating (channel : nat)
| LogParsed (data : gmap string Data).

Inductive traffic : Type :=
| Status (r : request)
| GetData.

Record plug_transport : Type := PlugTransport {
  api : transport;
  getData : settled (gmap string Data)
}.

(** [s.replace(pattern, replacement)] for a string pattern: the first
    occurrence only. *)
Fixpoint replace_first (pattern replacement s : string) : string :=
  if String.prefix pattern s
  then replacement +:+ String.substring (String.length pattern)
                                        (String.length s - String.length pattern) s
  else match s with
       | EmptyString => EmptyString
       | String c s' => String c (replace_first pattern replacement s')
       end.

(** [Property.setCachedValueAndNotify] on a property without fields of
    its own. *)
Definition notify {T} (v : T) (p : property T) : property T :=
  Property (Some v) (notifications p ++ [v]).

(** The id of the property for a channel: [channel == 1 ? 'on' : `on${channel}`]. *)
Definition channel_id (channel : nat) : string :=
  if Nat.eqb channel 1 then "on" else "on" +:+ string_of_nat channel.

(** [this.onOffProperties.push(p); this.addProperty(p)] *)
Definition add_on_off (p : on_off) (d : device) : device :=
  Device (name d) (onOffProperties d ++ [p]) (voltageProperty d) (powerProperty d)
         (currentProperty d) (temperatureProperty d)
         (<[id p := OnOffAt (length (onOffProperties d))]> (properties d)).

(** [new OnOffProperty(this, id, `Channel ${channel}`, host, password,
    `${channel}`)] *)
Definition channel_switch (channel : nat) : on_off :=
  OnOff (channel_id channel) ("Channel " +:+ string_of_nat channel)
        (Object (Property None []) (Plug.PlugFields None (string_of_nat channel))).

(** The loop over [channels] in the constructor. *)
Fixpoint add_channels (channels : list nat) (d : device) (log : list line)
  : device * list line :=
  match channels with
  | [] => (d, log)
  | channel :: rest =>
      add_channels rest (add_on_off (channel_switch channel) d)
                   (log ++ [LogCreating channel])
  end.

(** The one switch of a plug without channels. *)
Definition single_switch : on_off :=
  OnOff "on" "On" (Object (Property None []) (Plug.PlugFields None EmptyString)).

(** [updatePowerProperties]: the device as the method leaves it, also when
    it throws. *)
Definition updatePowerProperties (data : gmap string Data) (d : device)
  : settled unit * device :=
  let voltage :=
    match data !! "Voltage", voltageProperty d with
    | Some sample, Some p => Some (notify (data_value sample) p)
    | _, p => p
    end in
  let current :=
    match data !! "Current", currentProperty d with
    | Some sample, Some p => Some (notify (data_value sample) p)
    | _, p => p
    end in
  let power :=
    match data !! "Power", powerProperty d with
    | Some sample, Some p => Some (notify (data_value sample) p)
    | _, p => p
    end in
  match temperatureProperty d with
  | Some (dataName, p) =>
      match value_under dataName data with
      | Fulfilled v =>
          (Fulfilled tt,
           Device (name d) (onOffProperties d) voltage power current
                  (Some (dataName, notify v p)) (properties d))
      | Rejected e =>
          (Rejected e,
           Device (name d) (onOffProperties d) voltage power current
                  (temperatureProperty d) (properties d))
      end
  | None =>
      (Fulfilled tt,
       Device (name d) (onOffProperties d) voltage power current None (properties d))
  end.

Section Construction.

(** [findTemperatureProperty] of ./table-parser, a file that is not among
    the sources: it answers with a name and the sample under it, or with
    [undefined]. *)
Variable findTemperatureProperty : gmap string Data -> option (string * Data).

(** The constructor: the device and the lines it logged, or the error it
    threw. *)
Definition new (id : string) (experimental : option flags)
  (data : gmap string Data) (channels : list nat) : settled device * list line :=
  let d := Device (replace_first ".local" EmptyString id) [] None None None None ∅ in
  let multi :=
    match experimental with
    | Some f => multiChannelRelay f && negb (Nat.eqb (length channels) 0)
    | None => false
    end in
  let (d, log) :=
    if multi then add_channels channels d []
    else (add_on_off single_switch d, []) in
  let log := log ++ [LogParsed data] in
  let d :=
    match data !! "Voltage" with
    | Some _ =>
        Device (name d) (onOffProperties d) (Some (Property None [])) (powerProperty d)
               (currentProperty d) (temperatureProperty d)
               (<["voltage" := VoltageRef]> (properties d))
    | None => d
    end in
  let d :=
    match data !! "Current" with
    | Some _ =>
        Device (name d) (onOffProperties d) (voltageProperty d) (powerProperty d)
               (Some (Property None [])) (temperatureProperty d)
               (<["current" := CurrentRef]> (properties d))
    | None => d
    end in
  let d :=
    match data !! "Power" with
    | Some _ =>
        Device (name d) (onOffProperties d) (voltageProperty d) (Some (Property None []))
               (currentProperty d) (temperatureProperty d)
               (<["power" := PowerRef]> (properties d))
    | None => d
    end in
  let d :=
    match experimental with
    | Some f =>
        if temperatureSensor f then
          match findTemperatureProperty data with
          | Some (dataName, sample) =>
              Device (name d) (onOffProperties d) (voltageProperty d) (powerProperty d)
                     (currentProperty d)
                     (Some (dataName, notify (data_value sample) (Property None [])))
                     (<["temperature" := TemperatureRef]> (properties d))
          | None => d
          end
        else d
    | None => d
    end in
  match updatePowerProperties data d with
  | (Fulfilled _, d') => (Fulfilled d', log)
  | (Rejected e, _) => (Rejected e, log)
  end.

End Construction.

(** The device while it runs: itself, what was logged, what went over the
    network and the rejections nobody handled. *)
Record running : Type := Running {
  plug : device;
  printed : list line;
  traffic_sent : list traffic;
  dropped : list error
}.

(** [onOffProperty.updateValue()] with its promise dropped, for each of
    the properties in turn. *)
Fixpoint update_switches (net : transport) (switches : list on_off)
  : list on_off * list line * list traffic * list error :=
  match switches with
  | [] => ([], [], [], [])
  | p :: rest =>
      let w := snd (detach (Plug.updateValue net) (World (switch p) [] [] [])) in
      let '(rest', lines, sent, errors) := update_switches net rest in
      (OnOff (id p) (title p) (self w) :: rest',
       map OfProperty (console w) ++ lines,
       map Status (wire w) ++ sent,
       unhandled w ++ errors)
  end.

(** [PowerPlug.poll] *)
Definition poll (net : plug_transport) (r : running) : settled unit * running :=
  let d := plug r in
  let '(switches, lines, sent, errors) := update_switches (api net) (onOffProperties d) in
  let d := Device (name d) switches (voltageProperty d) (powerProperty d)
                  (currentProperty d) (temperatureProperty d) (properties d) in
  let printed := printed r ++ lines in
  let sent := traffic_sent r ++ sent ++ [GetData] in
  let dropped := dropped r ++ errors in
  match getData net with
  | Fulfilled data =>
      let (outcome, d') := updatePowerProperties data d in
      (outcome, Running d' printed sent dropped)
  | Rejected e => (Rejected e, Running d printed sent dropped)
  end.

(** The callback of [PowerPlug.startPolling]: the timer drops the promise
    of [poll]. *)
Definition tick (net : plug_transport) (r : running) : running :=
  match poll net r with
  | (Fulfilled _, r') => r'
  | (Rejected e, r') =>
      Running (plug r') (printed r') (traffic_sent r') (dropped r' ++ [e])
  end.

(** What the device exposes: the ids of its switches and which telemetry
    properties exist. *)
Definition shape (d : device)
  : list string * bool * bool * bool * option string * gmap string reference :=
  (map id (onOffProperties d),
   bool_decide (is_Some (voltageProperty d)),
   bool_decide (is_Some (currentProperty d)),
   bool_decide (is_Some (powerProperty d)),
   fst <$> temperatureProperty d,
   properties d).

(** The telemetry properties of the device. *)
Definition telemetry (d : device)
  : option (property jsval) * option (property jsval) * option (property jsval)
    * option (string * property jsval) :=
  (voltageProperty d, currentProperty d, powerProperty d, temperatureProperty d).

(** The status query of a switch, as traffic of the device. *)
Definition status_query (p : on_off) : traffic :=
  Status (Get ("Power" +:+ Plug.channel (fields (switch p)))).

(** [updatePowerProperties] on one of voltage, current and power: a sample
    under the name is cached and notified by a property that exists. *)
Definition metered (sample : option Data) (p : option (property jsval))
  : option (property jsval) :=
  match sample, p with
  | Some s, Some q => Some (notify (data_value s) q)
  | _, _ => p
  end.

End PowerPlug.

(** ** Sample plugs *)

Module PlugSample.

(** No temperature sensor is found. *)
Definition no_sensor (data : gmap string PowerPlug.Data)
  : option (string * PowerPlug.Data) := None.

(** The sensor named DS18B20 is found when the sample has it. *)
Definition ds18b20 (data : gmap string PowerPlug.Data)
  : option (string * PowerPlug.Data) :=
  match data !! "DS18B20" with
  | Some d => Some ("DS18B20", d)
  | None => None
  end.

Definition volts (q : Q) : PowerPlug.Data := PowerPlug.MkData (Some (JNum (Finite q))) "V".

Definition degrees (q : Q) : PowerPlug.Data :=
  PowerPlug.MkData (Some (JNum (Finite q))) "C".

(** A sample with a voltage and a temperature. *)
Definition metered : gmap string PowerPlug.Data :=
  <["Voltage" := volts 230]> (<["DS18B20" := degrees 21]> ∅).

(** A later sample in which the sensor is missing. *)
Definition sensor_lost : gmap string PowerPlug.Data :=
  <["Voltage" := volts 231]> ∅.

Definition all_flags : PowerPlug.flags := PowerPlug.Flags true true.

(** The device built for the metered plug with relays 1 and 3. *)
Definition built : settled PowerPlug.device * list PowerPlug.line :=
  PowerPlug.new ds18b20 "plug.local" (Some all_flags) metered [1; 3].

Definition run (d : PowerPlug.device) : PowerPlug.running :=
  PowerPlug.Running d [] [] [].

(** The device answers every status query with ON; telemetry as given. *)
Definition answering (data : settled (gmap string PowerPlug.Data))
  : PowerPlug.plug_transport :=
  PowerPlug.PlugTransport (Sample.always (JObj [("POWER", JStr "ON")])) data.

End PlugSample.

(** ** logger.ts *)

Module Logger.

(** The module variable [debugLogger]: the function that does nothing, or
    [console.log]. *)
Inductive sink : Type :=
| Silent
| ConsoleLog.

(** A call of [console.log] as [debug] makes it: two arguments, the
    message and the rest parameters as one array. *)
Record printed : Type := Printed {
  message : jsval;
  rest : list json
}.

(** The logger: the variable and what the console has received. *)
Definition state : Type := (sink * list printed)%type.

(** [setup] *)
Definition setup (debug : bool) (s : state) : state :=
  if debug then (ConsoleLog, snd s) else s.

(** [debug] *)
Definition debug (message : jsval) (optionalParams : list json) (s : state) : state :=
  match fst s with
  | Silent => s
  | ConsoleLog => (ConsoleLog, snd s ++ [Printed message optionalParams])
  end.

Inductive call : Type :=
| Setup (debug : bool)
| Debug (message : jsval) (optionalParams : list json).

Definition step (s : state) (c : call) : state :=
  match c with
  | Setup b => setup b s
  | Debug m ps => debug m ps s
  end.

(** The calls made on the module, in order, from its initial state. *)
Definition run (calls : list call) : state := fold_left step calls (Silent, []).

(** The console calls the [Debug] calls of a list would make. *)
Fixpoint debugged (calls : list call) : list printed :=
  match calls with
  | [] => []
  | Setup _ :: later => debugged later
  | Debug m ps :: later => Printed m ps :: debugged later
  end.

End Logger.

(** * Properties *)

(** ** Channel probing *)

Lemma isAvailable_answered (net : transport) (i : nat) (w : world unit) :
  Plug.answers net i ->
  exists c,
    Plug.isAvailable net i w =
    (Fulfilled (Plug.reports_on_off net i),
     World (self w) c (wire w ++ [Plug.power_query i]) (unhandled w)).
Proof.
  intros (r & j & Hr & Hj & Hn).
  unfold Plug.isAvailable, Plug.reports_on_off, Plug.power_query, bind,
    call_getStatus, await, debug, ret.
  rewrite Hr; simpl; rewrite Hj.
  destruct j as [ | b | n | s | items | ms ]; try congruence; simpl; eauto.
  destruct (assoc _ ms) as [ [ | b | n | s | items | ms' ] | ]; simpl; eauto.
  destruct (String.eqb s "ON" || String.eqb s "OFF"); simpl; eauto.
Qed.

Lemma isAvailable_rejected (net : transport) (i : nat) (e : error) (w : world unit) :
  getStatus net ("POWER" +:+ string_of_nat i) = Rejected e ->
  Plug.isAvailable net i w =
  (Rejected e, World (self w) (console w) (wire w ++ [Plug.power_query i]) (unhandled w)).
Proof.
  intros Hr.
  unfold Plug.isAvailable, Plug.power_query, bind, call_getStatus.
  now rewrite Hr.
Qed.

Lemma probe_loop_answered (net : transport) (n : nat) :
  forall (i : nat) (acc : list nat) (w : world unit),
    (forall k, i <= k < i + n -> Plug.answers net k) ->
    exists c,
      Plug.probe_loop net n i acc w =
      (Fulfilled (acc ++ List.filter (Plug.reports_on_off net) (seq i n)),
       World (self w) c (wire w ++ map Plug.power_query (seq i n)) (unhandled w)).
Proof.
  induction n as [ | n IH ]; intros i acc w Hall; simpl.
  - exists (console w). unfold ret. rewrite !app_nil_r. now destruct w.
  - destruct (isAvailable_answered net i w) as [c Hc]; [ apply Hall; lia | ].
    unfold bind at 1. rewrite Hc.
    edestruct (IH (S i)) as [c' Hc']; [ intros k Hk; apply Hall; lia | ].
    rewrite Hc'. exists c'. simpl.
    destruct (Plug.reports_on_off net i); simpl;
      now rewrite <- ?app_assoc.
Qed.

Lemma probe_loop_rejected (net : transport) (e : error) (n : nat) :
  forall (i k : nat) (acc : list nat) (w : world unit),
    i <= k < i + n ->
    (forall m, i <= m < k -> Plug.answers net m) ->
    getStatus net ("POWER" +:+ string_of_nat k) = Rejected e ->
    exists c,
      Plug.probe_loop net n i acc w =
      (Rejected e,
       World (self w) c (wire w ++ map Plug.power_query (seq i (S k - i))) (unhandled w)).
Proof.
  induction n as [ | n IH ]; intros i k acc w Hk Hbefore Hfail; [ lia | ].
  simpl. unfold bind at 1.
  destruct (Nat.eq_dec i k) as [ -> | Hne ].
  - rewrite (isAvailable_rejected net k e w Hfail).
    exists (console w). now replace (S k - k) with 1 by lia.
  - destruct (isAvailable_answered net i w) as [c Hc]; [ apply Hbefore; lia | ].
    rewrite Hc.
    edestruct (IH (S i) k) as [c' Hc']; [ lia | intros m Hm; apply Hbefore; lia | exact Hfail | ].
    rewrite Hc'. exists c'. simpl.
    replace (S k - i) with (S (S k - S i)) by lia.
    simpl. now rewrite <- app_assoc.
Qed.

(** C1.  When the stub answers each of the nine queries with a parsed body
    other than [null], [getAvailableChannels] queries POWER1 to POWER9 in
    that order and returns, ascending and with gaps kept, exactly the
    indices whose body has the field POWERi equal to the string ON or the
    string OFF; a stub that reports POWER1 to POWER5 and leaves POWER6 to
    POWER9 out yields [1; 2; 3; 4; 5]. *)
Theorem probe_returns_reported_channels (net : transport) (w : world unit) :
  (forall i, 1 <= i <= 9 -> Plug.answers net i) ->
  let outcome := Plug.getAvailableChannels net w in
  fst outcome =
    Fulfilled (List.filter (Plug.reports_on_off net) [1; 2; 3; 4; 5; 6; 7; 8; 9])
  /\ wire (snd outcome) = wire w ++ map Plug.power_query [1; 2; 3; 4; 5; 6; 7; 8; 9]
  /\ ((forall i, 1 <= i <= 9 -> Plug.reports_on_off net i = Nat.leb i 5) ->
      fst outcome = Fulfilled [1; 2; 3; 4; 5]).
Proof.
  intros Hall outcome.
  destruct (probe_loop_answered net 9 1 [] w) as [c Hc];
    [ intros k Hk; apply Hall; lia | ].
  assert (Hfst : fst outcome =
    Fulfilled (List.filter (Plug.reports_on_off net) [1; 2; 3; 4; 5; 6; 7; 8; 9])).
  { subst outcome. unfold Plug.getAvailableChannels. simpl Nat.sub. now rewrite Hc. }
  split; [ exact Hfst | split ].
  - subst outcome. unfold Plug.getAvailableChannels. simpl Nat.sub. now rewrite Hc.
  - intros Hfive. rewrite Hfst. simpl.
    rewrite !Hfive by lia. reflexivity.
Qed.

Lemma five_relays_answers (i : nat) : 1 <= i <= 9 -> Plug.answers Sample.five_relays i.
Proof.
  intros Hi.
  assert (Hcases : i = 1 \/ i = 2 \/ i = 3 \/ i = 4 \/ i = 5 \/
                   i = 6 \/ i = 7 \/ i = 8 \/ i = 9) by lia.
  unfold Plug.answers.
  repeat match goal with H : _ \/ _ |- _ => destruct H as [ H | H ] end;
    subst i; eexists _, _; repeat split; try reflexivity; discriminate.
Qed.

Lemma probe_returns_reported_channels_witness :
  fst (Plug.getAvailableChannels Sample.five_relays Sample.start)
  = Fulfilled [1; 2; 3; 4; 5].
Proof.
  destruct (probe_returns_reported_channels Sample.five_relays Sample.start
              five_relays_answers) as (_ & _ & Hfive).
  apply Hfive. intros i Hi.
  assert (Hcases : i = 1 \/ i = 2 \/ i = 3 \/ i = 4 \/ i = 5 \/
                   i = 6 \/ i = 7 \/ i = 8 \/ i = 9) by lia.
  repeat match goal with H : _ \/ _ |- _ => destruct H as [ H | H ] end;
    subst i; reflexivity.
Defined.

(** C1 as stated fails for a stub that does not answer every query with a
    body to read a field of: when POWER1 to POWER5 are reported and the
    body for POWER6 to POWER9 is [null], the indices whose body has the
    field are 1 to 5, yet the probe returns no list; it is rejected with
    a TypeError at the sixth query. *)
Lemma probe_fails_on_null_body :
  List.filter (Plug.reports_on_off Sample.null_after_five) [1; 2; 3; 4; 5; 6; 7; 8; 9]
  = [1; 2; 3; 4; 5]
  /\ fst (Plug.getAvailableChannels Sample.null_after_five Sample.start)
     = Rejected TypeError
  /\ wire (snd (Plug.getAvailableChannels Sample.null_after_five Sample.start))
     = map Plug.power_query [1; 2; 3; 4; 5; 6].
Proof. repeat split. Qed.

(** C7, as the code has it.  The probe has no handler: when the status
    request for index [i] is rejected, and the indices before it were
    answered, [getAvailableChannels] is rejected with that error after
    the queries POWER1 to POWERi; it returns no list and sends no query
    for a later index. *)
Theorem probe_rejected_by_transport_error
  (net : transport) (i : nat) (e : error) (w : world unit) :
  1 <= i <= 9 ->
  (forall k, 1 <= k < i -> Plug.answers net k) ->
  getStatus net ("POWER" +:+ string_of_nat i) = Rejected e ->
  let outcome := Plug.getAvailableChannels net w in
  fst outcome = Rejected e
  /\ wire (snd outcome) = wire w ++ map Plug.power_query (seq 1 i).
Proof.
  intros Hi Hbefore Hfail outcome.
  assert (Hrange : 1 <= i < 1 + 9) by lia.
  destruct (probe_loop_rejected net e 9 1 i [] w Hrange Hbefore Hfail) as [c Hc].
  assert (Hlen : S i - 1 = i) by lia.
  rewrite Hlen in Hc.
  subst outcome. unfold Plug.getAvailableChannels.
  change (10 - 1) with 9. rewrite Hc. now split.
Qed.

Lemma probe_rejected_by_transport_error_witness :
  fst (Plug.getAvailableChannels Sample.third_times_out Sample.start)
  = Rejected (NetworkError "ETIMEDOUT").
Proof.
  apply (probe_rejected_by_transport_error
           Sample.third_times_out 3 (NetworkError "ETIMEDOUT") Sample.start).
  - lia.
  - intros k Hk. assert (Hcases : k = 1 \/ k = 2) by lia.
    destruct Hcases as [ -> | -> ];
      eexists _, _; repeat split; try reflexivity; discriminate.
  - reflexivity.
Defined.

(** C7 as stated fails: the plug of five relays with the third query
    timing out gives no channel list, and POWER4 to POWER9 are never
    queried. *)
Lemma probe_does_not_survive_transport_error :
  (forall channels,
      fst (Plug.getAvailableChannels Sample.third_times_out Sample.start)
      <> Fulfilled channels)
  /\ wire (snd (Plug.getAvailableChannels Sample.third_times_out Sample.start))
     = [Get "POWER1"; Get "POWER2"; Get "POWER3"].
Proof.
  split; [ intros channels; vm_compute; discriminate | reflexivity ].
Qed.

(** ** Polling the on/off property of a plug *)

Lemma detach_settles {O A} (m : Async O A) (w : world O) :
  fst (detach m w) = Fulfilled tt /\ self (snd (detach m w)) = self (snd (m w)).
Proof.
  unfold detach. destruct (m w) as [[a | e] w']; simpl; auto.
Qed.

Lemma updateValue_self (net : transport) (w : world Plug.OnOffProperty) :
  self (snd (Plug.updateValue net w)) =
  let o := self w in
  let ch := Plug.channel (fields o) in
  match Plug.reading net ch with
  | Some b =>
      if Plug.differs (Plug.lastState (fields o)) b
      then Object (Property (Some b) (notifications (base o) ++ [b]))
                  (Plug.PlugFields (Some b) ch)
      else o
  | None => o
  end.
Proof.
  unfold Plug.updateValue, Plug.reading, bind, get_self, call_getStatus, await; simpl.
  destruct (getStatus net _) as [r | e]; simpl; [ | reflexivity ].
  destruct (json_body r) as [j | e]; simpl; [ | reflexivity ].
  destruct (member "POWER" j) as [v | e]; simpl; [ | reflexivity ].
  destruct (loose_eq_ON v) as [b | e]; simpl; [ | reflexivity ].
  destruct (Plug.differs _ _); reflexivity.
Qed.





(** ** What a poll reads *)

Lemma prints_as_ON_wrapped :
  forall j, prints_as_ON j = true -> exists n, j = wrapped n (JStr "ON").
Proof.
  fix IH 1.
  intros [ | b | q | s | [ | x [ | y items ] ] | ms ] H; simpl in H; try discriminate.
  - apply String.eqb_eq in H. subst s. now exists 0.
  - destruct (IH x H) as [n ->]. now exists (S n).
Qed.

Lemma wrapped_prints_as_ON (n : nat) : prints_as_ON (wrapped n (JStr "ON")) = true.
Proof. induction n as [ | n IH ]; [ reflexivity | exact IH ]. Qed.

Lemma wrapped_never_throws (n : nat) : conversion_throws (wrapped n (JStr "ON")) = false.
Proof. induction n as [ | n IH ]; [ reflexivity | simpl; now rewrite IH ]. Qed.

Lemma loose_eq_ON_iff (v : jsval) :
  loose_eq_ON v = Fulfilled true <-> exists n, v = Some (wrapped n (JStr "ON")).
Proof.
  split.
  - destruct v as [ [ | b | q | s | items | ms ] | ]; simpl; try discriminate; intros H.
    + injection H as H. apply String.eqb_eq in H. subst s. now exists 0.
    + destruct (existsb conversion_throws items); [ discriminate | ].
      injection H as H.
      destruct (prints_as_ON_wrapped (JArr items) H) as [n ->]. now exists n.
    + destruct (assoc "toString" ms); discriminate.
  - intros [n ->]. destruct n as [ | n ]; [ reflexivity | ].
    assert (Hthrows := wrapped_never_throws (S n)).
    assert (Hprints := wrapped_prints_as_ON (S n)).
    simpl in *. now rewrite Hthrows, Hprints.
Qed.

Lemma loose_eq_ON_rejected (v : jsval) (e : error) :
  loose_eq_ON v = Rejected e
  <-> e = TypeError /\ exists x, v = Some x /\ conversion_throws x = true.
Proof.
  split.
  - destruct v as [ [ | b | q | s | items | ms ] | ]; simpl; try discriminate.
    + destruct (existsb conversion_throws items) eqn:E; [ | discriminate ].
      intros H. injection H as <-. split; [ reflexivity | ].
      exists (JArr items). now split.
    + destruct (assoc "toString" ms) eqn:E; [ | discriminate ].
      intros H. injection H as <-. split; [ reflexivity | ].
      exists (JObj ms). split; [ reflexivity | ]. simpl. now rewrite E.
  - intros (-> & x & -> & Hx).
    destruct x as [ | b | q | s | items | ms ]; simpl in *; try discriminate.
    + now rewrite Hx.
    + destruct (assoc "toString" ms); [ reflexivity | discriminate ].
Qed.

(** C10, as the code has it.  A poll whose body parses to something other
    than [null] compares the POWER field with [==], a loose equality, and
    when that comparison yields a boolean the light caches it on every
    poll and the plug when it differs from [lastState].  The boolean is
    true exactly when POWER is the string ON or ON inside one-item arrays;
    for a field that is absent, [null], a boolean, a number or a string it
    is the strict comparison, so that all of these but the string ON read
    as false.  When the body is [null], or the conversion of the POWER
    field to a primitive throws, which is the one way the comparison
    fails, the poll is rejected with a TypeError and the property is left
    as it was: nothing is cached, notified or logged. *)
Theorem poll_reads_loose_equality
  (net : transport) (r : response) (j : json)
  (wl : world (object bool unit)) (wp : world Plug.OnOffProperty) :
  json_body r = Fulfilled j ->
  let power := member_opt "POWER" j in
  let light := Light.OnOff_poll net wl in
  let plug := Plug.updateValue net wp in
  (forall b : bool,
      j <> JNull ->
      loose_eq_ON power = Fulfilled b ->
      (getStatus net "Power" = Fulfilled r ->
       value (base (self (snd light))) = Some b)
      /\ (getStatus net ("Power" +:+ Plug.channel (fields (self wp))) = Fulfilled r ->
          Plug.lastState (fields (self wp)) <> Some b ->
          value (base (self (snd plug))) = Some b)
      /\ (b = true <-> exists n, power = Some (wrapped n (JStr "ON")))
      /\ (primitive power = true -> b = strict_eq_str power "ON"))
  /\ (forall e : error,
        loose_eq_ON power = Rejected e
        <-> e = TypeError /\ exists x, power = Some x /\ conversion_throws x = true)
  /\ (j = JNull \/ loose_eq_ON power = Rejected TypeError ->
      (getStatus net "Power" = Fulfilled r ->
       fst light = Rejected TypeError
       /\ self (snd light) = self wl
       /\ console (snd light) = console wl)
      /\ (getStatus net ("Power" +:+ Plug.channel (fields (self wp))) = Fulfilled r ->
          fst plug = Rejected TypeError
          /\ self (snd plug) = self wp
          /\ console (snd plug) = console wp)).
Proof.
  intros Hj power light plug.
  split; [ | split ].
  - intros b Hnull Hb.
    assert (Hmember : member "POWER" j = Fulfilled power).
    { subst power. destruct j; try reflexivity. congruence. }
    split; [ | split; [ | split ] ].
    + intros Hr. subst light.
      unfold Light.OnOff_poll, Light.update, bind, call_getStatus, await; simpl.
      now rewrite Hr; simpl; rewrite Hj; simpl; rewrite Hmember; simpl; rewrite Hb.
    + intros Hr Hlast. subst plug.
      rewrite updateValue_self; simpl.
      unfold Plug.reading. rewrite Hr, Hj, Hmember, Hb.
      destruct (Plug.lastState (fields (self wp))) as [ last | ]; simpl; [ | reflexivity ].
      destruct (Bool.eqb last b) eqn:E; simpl; [ | reflexivity ].
      apply Bool.eqb_prop in E. congruence.
    + rewrite <- loose_eq_ON_iff, Hb. split; congruence.
    + intros Hprim.
      destruct power as [ [ | c | q | s | items | ms ] | ]; simpl in *;
        try discriminate; congruence.
  - intros e. apply loose_eq_ON_rejected.
  - intros Hfail.
    assert (Hread : member "POWER" j = Rejected TypeError
                    \/ (member "POWER" j = Fulfilled power
                        /\ loose_eq_ON power = Rejected TypeError)).
    { destruct Hfail as [ -> | Hthrows ]; [ now left | right ].
      split; [ | exact Hthrows ].
      subst power. destruct j; try reflexivity. discriminate Hthrows. }
    split; intros Hr.
    + subst light.
      unfold Light.OnOff_poll, Light.update, bind, call_getStatus, await; simpl.
      rewrite Hr; simpl; rewrite Hj; simpl.
      destruct Hread as [ -> | [ -> -> ] ]; simpl; now repeat split.
    + subst plug. unfold Plug.OnOffProperty in *.
      unfold Plug.updateValue, bind, call_getStatus, await, get_self; simpl.
      rewrite Hr; simpl; rewrite Hj; simpl.
      destruct Hread as [ -> | [ -> -> ] ]; simpl; now repeat split.
Qed.

Lemma poll_reads_loose_equality_witness :
  value (base (self (snd (Light.OnOff_poll
    (Sample.always (JObj [("POWER", JStr "OFF")])) (Sample.caching true)))))
  = Some false
  /\ fst (Light.OnOff_poll (Sample.always JNull) (Sample.caching true))
     = Rejected TypeError.
Proof.
  split.
  - destruct (poll_reads_loose_equality
                (Sample.always (JObj [("POWER", JStr "OFF")]))
                (Response 200 "OK" (Fulfilled (JObj [("POWER", JStr "OFF")])))
                (JObj [("POWER", JStr "OFF")])
                (Sample.caching true) (Plug.fresh Sample.single) eq_refl)
      as (Hread & _).
    destruct (Hread false) as (Hlight & _); [ discriminate | reflexivity | ].
    apply Hlight. reflexivity.
  - destruct (poll_reads_loose_equality
                (Sample.always JNull) (Response 200 "OK" (Fulfilled JNull)) JNull
                (Sample.caching true) (Plug.fresh Sample.single) eq_refl)
      as (_ & _ & Hfails).
    destruct (Hfails (or_introl eq_refl)) as (Hlight & _).
    apply Hlight. reflexivity.
Defined.

(** C10 as stated fails: a POWER field that is the array [["ON"]] is not
    the string ON, yet the poll reads it as true and caches true over a
    cached false. *)
Lemma array_around_ON_reads_true :
  member_opt "POWER" (JObj [("POWER", JArr [JStr "ON"])]) <> Some (JStr "ON")
  /\ value (base (self (snd (Light.OnOff_poll
        (Sample.always (JObj [("POWER", JArr [JStr "ON"])])) (Sample.caching false)))))
     = Some true.
Proof. split; [ discriminate | reflexivity ]. Qed.

(** ** Polling the colour temperature *)

(** C6, as the code has it.  The poll of the colour temperature tests the
    parsed body, not its CT field: a falsy body ([null], [false], zero,
    the empty string) leaves the property as it was; a truthy body is
    converted and cached whether or not it has a CT field, an absent
    field being converted as [undefined]. *)
Theorem colour_temperature_poll_tests_body
  (tasmotaToKelvin : jsval -> jsval) (net : transport) (r : response) (j : json)
  (w : world (object jsval unit)) :
  getStatus net "CT" = Fulfilled r ->
  json_body r = Fulfilled j ->
  let after := self (snd (Light.ColorTemperature_poll tasmotaToKelvin net w)) in
  (truthy j = false -> after = self w)
  /\ (truthy j = true ->
      value (base after) = Some (tasmotaToKelvin (member_opt "CT" j))
      /\ notifications (base after)
         = notifications (base (self w)) ++ [tasmotaToKelvin (member_opt "CT" j)]).
Proof.
  intros Hr Hj after. subst after.
  unfold Light.ColorTemperature_poll, Light.update, bind, call_getStatus, await; simpl.
  rewrite Hr; simpl; rewrite Hj; simpl.
  split; intros Ht; rewrite Ht; simpl; auto.
Qed.

Lemma colour_temperature_poll_tests_body_witness :
  value (base (self (snd (Light.ColorTemperature_poll Sample.reciprocal
    (Sample.always (JObj [("CT", JNum (Finite 250))]))
    (Sample.caching (Some (JNum (Finite 2700))))))))
  = Some (Some (JNum (Finite 4000))).
Proof.
  destruct (colour_temperature_poll_tests_body Sample.reciprocal
              (Sample.always (JObj [("CT", JNum (Finite 250))]))
              (Response 200 "OK" (Fulfilled (JObj [("CT", JNum (Finite 250))])))
              (JObj [("CT", JNum (Finite 250))])
              (Sample.caching (Some (JNum (Finite 2700)))))
    as (_ & Htruthy).
  - reflexivity.
  - reflexivity.
  - destruct Htruthy as (Hvalue & _); [ reflexivity | exact Hvalue ].
Defined.

(** C6 as stated fails: a body that parses to the empty object has no CT
    field, and the poll still replaces the cached 4000 and notifies. *)
Lemma missing_CT_overwrites_cache :
  member_opt "CT" (JObj []) = None
  /\ value (base (self (Sample.caching (Some (JNum (Finite 4000))))))
     = Some (Some (JNum (Finite 4000)))
  /\ value (base (self (snd (Light.ColorTemperature_poll Sample.reciprocal
        (Sample.always (JObj [])) (Sample.caching (Some (JNum (Finite 4000))))))))
     = Some (Some (JNum NaN))
  /\ length (notifications (base (self (snd (Light.ColorTemperature_poll
        Sample.reciprocal (Sample.always (JObj []))
        (Sample.caching (Some (JNum (Finite 4000)))))))))
     = 2.
Proof. repeat split. Qed.

(** ** The write path *)

Lemma quiet_ret {O A} (a : A) : quiet (O := O) (ret a).
Proof. intros [o c ws u]. now exists (Fulfilled a), c. Qed.

Lemma quiet_throw {O A} (e : error) : quiet (O := O) (A := A) (throw e).
Proof. intros [o c ws u]. now exists (Rejected e), c. Qed.

Lemma quiet_await {O A} (p : settled A) : quiet (O := O) (await p).
Proof. intros [o c ws u]. now exists p, c. Qed.

Lemma quiet_debug {O} (l : log_line) : quiet (O := O) (debug l).
Proof. intros w. now exists (Fulfilled tt), (console w ++ [l]). Qed.

Lemma quiet_bind {O A B} (m : Async O A) (k : A -> Async O B) :
  quiet m -> (forall a, quiet (k a)) -> quiet (bind m k).
Proof.
  intros Hm Hk w. unfold bind.
  destruct (Hm w) as ([a | e] & c & ->).
  - destruct (Hk a (World (self w) c (wire w) (unhandled w))) as (x & c' & ->).
    now exists x, c'.
  - now exists (Rejected e), c.
Qed.

Lemma quiet_interpolate {O} (j : json) : quiet (O := O) (interpolate j).
Proof.
  unfold interpolate. destruct (conversion_throws j);
    [ apply quiet_throw | apply quiet_ret ].
Qed.

Create HintDb quiet discriminated.
#[local] Hint Resolve quiet_ret quiet_throw quiet_await quiet_debug quiet_interpolate
  : quiet.

Lemma inspect_result_frame {O} (result : response) : quiet (O := O) (inspect_result result).
Proof.
  unfold inspect_result.
  destruct (negb (status result =? 200)%Z); [ auto with quiet | ].
  apply quiet_bind; [ auto with quiet | intros json ].
  apply quiet_bind; [ auto with quiet | intros [ w | ]; [ | auto with quiet ] ].
  destruct (truthy w); [ | auto with quiet ].
  apply quiet_bind; [ auto with quiet | intros _ ].
  apply quiet_bind; [ auto with quiet | intros _ ].
  apply quiet_bind; [ auto with quiet | intros [ c | ]; [ | auto with quiet ] ].
  destruct (truthy c); [ | auto with quiet ].
  apply quiet_bind; auto with quiet.
Qed.

Lemma inspect_result_refused {O} (result : response) (w : world O) :
  status result <> 200%Z ->
  inspect_result result w
  = (Fulfilled tt,
     World (self w)
           (console w ++ [LogCouldNotSetStatus (statusText result) (status result)])
           (wire w) (unhandled w)).
Proof.
  intros Hs. unfold inspect_result.
  destruct (Z.eqb_spec (status result) 200) as [ | _ ]; [ contradiction | reflexivity ].
Qed.

(** A set closure that posts one command and inspects the result leaves
    the object alone. *)
Lemma post_and_inspect_self {O} (net : transport) (command : string) (p : payload)
  (w : world O) :
  self (snd ((result <- call_setStatus net command p ;; inspect_result result) w))
  = self w.
Proof.
  unfold bind, call_setStatus.
  destruct (setStatus net command p) as [r | e]; simpl; [ | reflexivity ].
  match goal with |- context [inspect_result r ?w'] =>
    destruct (inspect_result_frame r w') as (x & c & ->) end.
  reflexivity.
Qed.

Lemma light_setValue_cached {T F} (super_setValue : base_setValue_type)
  (set : T -> Async (object T F) unit) (v : T) (w : world (object T F)) :
  (forall w', self (snd (set v w')) = self w') ->
  caches super_setValue v (base (self w)) ->
  let outcome := Light.setValue super_setValue set v w in
  fst outcome = Fulfilled tt /\ value (base (self (snd outcome))) = Some v.
Proof.
  intros Hset (b' & Hsuper & Hvalue) outcome. subst outcome.
  unfold Light.setValue, try_catch, bind, debug, call_super_setValue; simpl.
  rewrite Hsuper; simpl.
  match goal with |- context [detach (set v) ?w'] =>
    destruct (detach_settles (set v) w') as [Hf Hs];
    destruct (detach (set v) w') as [x w''] eqn:E end.
  simpl in *. rewrite Hf. simpl. rewrite Hs, Hset. simpl. now split.
Qed.

(** C2.  In each write path ([setValue] of the plug's on/off property and
    of the light's on/off, brightness, colour and colour temperature
    properties), when the base [setValue] caches the written value and the
    remote end answers the command with a status other than 200, the call
    returns and the cached value is the written one: nothing is rolled
    back. *)
Theorem write_failure_keeps_cached_value
  (super_setValue : base_setValue_type) (kelvinToTasmota : jsval -> jsval)
  (manifest : Light.config) (net : transport) :
  refuses net ->
  (forall (v : bool) (w : world Plug.OnOffProperty),
      caches super_setValue v (base (self w)) ->
      let outcome := Plug.setValue super_setValue net v w in
      fst outcome = Fulfilled tt /\ value (base (self (snd outcome))) = Some v)
  /\ (forall (v : bool) (w : world (object bool unit)),
      caches super_setValue v (base (self w)) ->
      let outcome := Light.setValue super_setValue (Light.OnOff_set net) v w in
      fst outcome = Fulfilled tt /\ value (base (self (snd outcome))) = Some v)
  /\ (forall (v : jsval) (w : world (object jsval unit)),
      caches super_setValue v (base (self w)) ->
      let outcome := Light.setValue super_setValue (Light.Brightness_set net) v w in
      fst outcome = Fulfilled tt /\ value (base (self (snd outcome))) = Some v)
  /\ (forall (v : string) (w : world (object string number)),
      caches super_setValue v (base (self w)) ->
      let outcome := Light.setValue super_setValue (Light.Color_set manifest net) v w in
      fst outcome = Fulfilled tt /\ value (base (self (snd outcome))) = Some v)
  /\ (forall (v : jsval) (w : world (object jsval unit)),
      caches super_setValue v (base (self w)) ->
      let outcome :=
        Light.setValue super_setValue (Light.ColorTemperature_set kelvinToTasmota net) v w in
      fst outcome = Fulfilled tt /\ value (base (self (snd outcome))) = Some v).
Proof.
  intros Hrefuses.
  split; [ | repeat split ].
  - intros v w (b' & Hsuper & Hvalue) outcome. subst outcome.
    unfold Plug.OnOffProperty in *.
    unfold Plug.setValue, try_catch, bind, debug, call_super_setValue, get_self,
      call_setStatus; simpl.
    rewrite Hsuper; simpl.
    destruct (Hrefuses ("Power" +:+ Plug.channel (fields (self w)))
                       (PStr (if v then "ON" else "OFF"))) as (r & -> & Hstatus).
    rewrite inspect_result_refused by exact Hstatus. simpl. now split.
  - apply light_setValue_cached; [ | assumption ].
    intros w'. apply post_and_inspect_self.
  - apply light_setValue_cached; [ | assumption ].
    intros w'. apply post_and_inspect_self.
  - apply light_setValue_cached; [ | assumption ].
    intros w'. apply post_and_inspect_self.
  - apply light_setValue_cached; [ | assumption ].
    intros w'. apply post_and_inspect_self.
  - apply light_setValue_cached; [ | assumption ].
    intros w'. unfold Light.Color_set, bind at 1, get_self.
    apply post_and_inspect_self.
  - apply light_setValue_cached; [ | assumption ].
    intros w'. unfold Light.Color_set, bind at 1, get_self.
    apply post_and_inspect_self.
  - apply light_setValue_cached; [ | assumption ].
    intros w'. apply post_and_inspect_self.
  - apply light_setValue_cached; [ | assumption ].
    intros w'. apply post_and_inspect_self.
Qed.

Lemma write_failure_keeps_cached_value_witness :
  value (base (self (snd
    (Plug.setValue Sample.accepting Sample.refusing true (Plug.fresh Sample.single)))))
  = Some true
  /\ value (base (self (snd
       (Light.setValue Sample.accepting (Light.OnOff_set Sample.refusing) true
          (Sample.caching false)))))
     = Some true.
Proof.
  destruct (write_failure_keeps_cached_value
              Sample.accepting Sample.reciprocal (Light.Config None) Sample.refusing)
    as (Hplug & Hlight & _).
  - intros command p. eexists; split; [ reflexivity | discriminate ].
  - split.
    + apply Hplug. eexists; split; reflexivity.
    + apply Hlight. eexists; split; reflexivity.
Defined.

(** A read that fails rejects the poll after the one query. *)
Lemma read_fails_rejects {O A} (net : transport) (command : string) (e : error)
  (k : json -> Async O A) (w : world O) :
  read_fails net command e ->
  (response <- call_getStatus net command ;;
   result <- await (json_body response) ;;
   k result) w
  = (Rejected e,
     World (self w) (console w) (wire w ++ [Get command]) (unhandled w)).
Proof.
  intros [ Hr | (r & Hr & Hj) ]; unfold bind, call_getStatus, await; rewrite Hr; simpl;
    [ reflexivity | now rewrite Hj ].
Qed.

(** ** The channel width of a colour light *)




(** What a colour poll does once the body is there. *)
Lemma Color_poll_parsed (lowerCase : string -> string)
  (ToNumber : json -> settled number) (net : transport) (r : response) (j : json)
  (w : world (object string number)) :
  getStatus net "Color" = Fulfilled r ->
  json_body r = Fulfilled j ->
  Light.Color_poll lowerCase ToNumber net w
  = ((if is_zero (fields (self w))
      then half <- await (Light.half_length ToNumber (Light.color_or_empty j)) ;;
           put_fields half
      else ret tt) ;;;
     match Light.color_or_empty j with
     | JStr color =>
         let rgbColor := js_substring 0 6 color in
         let rgbColor :=
           if String.eqb rgbColor "000000" && Nat.eqb (String.length color) 8
           then repeat3 (js_substring 6 8 color)
           else rgbColor in
         Light.update ("#" +:+ Light.toLowerCase lowerCase rgbColor)
     | _ => throw TypeError
     end)
      (World (self w) (console w) (wire w ++ [Get "Color"]) (unhandled w)).
Proof.
  intros Hr Hj.
  unfold Light.Color_poll, bind at 1, call_getStatus. rewrite Hr.
  unfold bind at 1, await. rewrite Hj. reflexivity.
Qed.





(** ** The white channel on a colour write *)

Lemma above_iff (k : Q) (n : number) : above k n = true <-> wider_than k n.
Proof.
  destruct n as [ | negative | q ]; simpl.
  - split; [ discriminate | contradiction ].
  - now destruct negative.
  - destruct (Qle_bool q k) eqn:E; simpl.
    + apply Qle_bool_iff in E. split; [ discriminate | ].
      intros Hlt. apply Qlt_not_le in Hlt. contradiction.
    + split; [ intros _ | reflexivity ].
      apply Qnot_le_lt. intros Hle. apply Qle_bool_iff in Hle. congruence.
Qed.

Lemma two_characters (s : string) :
  String.length s = 2 -> exists c d, s = String c (String d EmptyString).
Proof.
  destruct s as [ | c [ | d [ | x s ] ] ]; simpl; try discriminate.
  intros _. now exists c, d.
Qed.

Lemma Color_set_wire (manifest : Light.config) (net : transport) (v : string)
  (w : world (object string number)) (sent : string) :
  Light.Color_set manifest net v w
  = (result <- call_setStatus net "Color" (PStr sent) ;; inspect_result result) w ->
  wire (snd (Light.Color_set manifest net v w)) = wire w ++ [Post "Color" (PStr sent)].
Proof.
  intros ->. unfold bind, call_setStatus.
  destruct (setStatus net "Color" (PStr sent)) as [r | e]; simpl; [ | reflexivity ].
  match goal with |- context [inspect_result r ?w'] =>
    destruct (inspect_result_frame r w') as (x & c & ->) end.
  reflexivity.
Qed.

(** C4.  With [useWhiteLedInColorMode] set and a channel width above
    three, a colour write of [#rrggbb] whose three pairs are the same two
    characters posts the colour [#000000rr], the white channel taking the
    pair; when the pairs are not all the same the written value is posted
    as it is. *)
Theorem white_led_takes_over_grey
  (manifest : Light.config) (e : Light.experimental_config) (net : transport)
  (w : world (object string number)) (r g b : string) :
  Light.experimental manifest = Some e ->
  Light.useWhiteLedInColorMode e = true ->
  wider_than 3 (fields (self w)) ->
  String.length r = 2 -> String.length g = 2 -> String.length b = 2 ->
  let v := "#" +:+ r +:+ g +:+ b in
  let posted := wire (snd (Light.Color_set manifest net v w)) in
  (r = g /\ g = b -> posted = wire w ++ [Post "Color" (PStr ("#000000" +:+ r))])
  /\ (~ (r = g /\ g = b) -> posted = wire w ++ [Post "Color" (PStr v)]).
Proof.
  intros He Hflag Hwidth Hr Hg Hb v posted.
  destruct (two_characters r Hr) as (r1 & r2 & ->).
  destruct (two_characters g Hg) as (g1 & g2 & ->).
  destruct (two_characters b Hb) as (b1 & b2 & ->).
  assert (Hwide : above 3 (fields (self w)) = true) by now apply above_iff.
  subst posted v.
  split.
  - intros [Hrg Hgb]. injection Hrg as <- <-. injection Hgb as <- <-.
    apply Color_set_wire.
    unfold Light.Color_set, bind at 1, get_self. rewrite He, Hflag, Hwide.
    simpl. now rewrite !Ascii.eqb_refl.
  - intros Hdiffer.
    apply Color_set_wire.
    unfold Light.Color_set, bind at 1, get_self. rewrite He, Hflag, Hwide.
    match goal with |- context [String.eqb ?x ?y] =>
      destruct (String.eqb_spec x y) as [Heq | _] end; [ | reflexivity ].
    exfalso. apply Hdiffer. simpl in Heq.
    injection Heq as <- <- <- <-. now split.
Qed.

Lemma white_led_takes_over_grey_witness :
  wire (snd (Light.Color_set (Light.Config (Some (Light.Experimental true)))
               Sample.refusing "#808080" (Sample.colour_of_width 4)))
  = [Post "Color" (PStr "#00000080")]
  /\ wire (snd (Light.Color_set (Light.Config (Some (Light.Experimental true)))
                  Sample.refusing "#800000" (Sample.colour_of_width 4)))
     = [Post "Color" (PStr "#800000")].
Proof.
  split.
  - destruct (white_led_takes_over_grey
                (Light.Config (Some (Light.Experimental true))) (Light.Experimental true)
                Sample.refusing (Sample.colour_of_width 4) "80" "80" "80"
                eq_refl eq_refl eq_refl eq_refl eq_refl eq_refl)
      as (Hgrey & _).
    apply Hgrey. now split.
  - destruct (white_led_takes_over_grey
                (Light.Config (Some (Light.Experimental true))) (Light.Experimental true)
                Sample.refusing (Sample.colour_of_width 4) "80" "00" "00"
                eq_refl eq_refl eq_refl eq_refl eq_refl eq_refl)
      as (_ & Hother).
    apply Hother. intros [Hrg _]. discriminate.
Defined.

(** ** Failures at the property boundary *)

(** C8, as the code has it.  A write returns a fulfilled promise whatever
    the base [setValue], the transport and the response do: the plug's
    [setValue] awaits every step inside its handler, so that a transport
    error, and likewise a failure to parse the body of an answer with
    status 200, is logged as the reason the value could not be set, and
    nothing is left unhandled; a light's [setValue] is fulfilled as well.
    A poll has no handler: when the status request or the parsing of its
    body fails, the promise of the poll is rejected with that error,
    nothing is logged and the property is untouched; the timer callback
    drops the promise, which leaves the rejection unhandled. *)
Theorem writes_fulfil_and_polls_reject
  (super_setValue : base_setValue_type) (tasmotaToKelvin : jsval -> jsval)
  (lowerCase : string -> string) (ToNumber : json -> settled number)
  (net : transport) (e : error) :
  (forall (v : bool) (w : world Plug.OnOffProperty),
      let outcome := Plug.setValue super_setValue net v w in
      fst outcome = Fulfilled tt /\ unhandled (snd outcome) = unhandled w)
  /\ (forall (v : bool) (w : world Plug.OnOffProperty),
       caches super_setValue v (base (self w)) ->
       setStatus net ("Power" +:+ Plug.channel (fields (self w)))
                 (PStr (if v then "ON" else "OFF")) = Rejected e ->
       console (snd (Plug.setValue super_setValue net v w))
       = console w ++ [LogSetValue; LogCouldNotSetValue e])
  /\ (forall (v : bool) (w : world Plug.OnOffProperty) (r : response),
       caches super_setValue v (base (self w)) ->
       setStatus net ("Power" +:+ Plug.channel (fields (self w)))
                 (PStr (if v then "ON" else "OFF")) = Fulfilled r ->
       status r = 200%Z ->
       json_body r = Rejected e ->
       console (snd (Plug.setValue super_setValue net v w))
       = console w ++ [LogSetValue; LogCouldNotSetValue e])
  /\ (forall (O : Type) (poll : Async O unit) (w : world O),
       fst (poll w) = Rejected e ->
       fst (Light.timer_tick poll w) = Fulfilled tt
       /\ console (snd (Light.timer_tick poll w)) = console (snd (poll w))
       /\ unhandled (snd (Light.timer_tick poll w)) = unhandled (snd (poll w)) ++ [e])
  /\ (forall (T F : Type) (set : T -> Async (object T F) unit) (v : T)
             (w : world (object T F)),
       fst (Light.setValue super_setValue set v w) = Fulfilled tt)
  /\ (read_fails net "Power" e ->
      forall w, Light.OnOff_poll net w
                = (Rejected e, World (self w) (console w) (wire w ++ [Get "Power"])
                                     (unhandled w)))
  /\ (read_fails net "Dimmer" e ->
      forall w, Light.Brightness_poll net w
                = (Rejected e, World (self w) (console w) (wire w ++ [Get "Dimmer"])
                                     (unhandled w)))
  /\ (read_fails net "CT" e ->
      forall w, Light.ColorTemperature_poll tasmotaToKelvin net w
                = (Rejected e, World (self w) (console w) (wire w ++ [Get "CT"])
                                     (unhandled w)))
  /\ (read_fails net "Color" e ->
      forall w, Light.Color_poll lowerCase ToNumber net w
                = (Rejected e, World (self w) (console w) (wire w ++ [Get "Color"])
                                     (unhandled w)))
  /\ (read_fails net "Color" e ->
      forall w, Light.ColorMode_poll net w
                = (Rejected e, World (self w) (console w) (wire w ++ [Get "Color"])
                                     (unhandled w)))
  /\ (forall w : world Plug.OnOffProperty,
      read_fails net ("Power" +:+ Plug.channel (fields (self w))) e ->
      Plug.updateValue net w
      = (Rejected e,
         World (self w) (console w)
               (wire w ++ [Get ("Power" +:+ Plug.channel (fields (self w)))])
               (unhandled w))).
Proof.
  split; [ | split; [ | split; [ | split; [ | split; [ | repeat split ] ] ] ] ].
  - intros v w outcome. subst outcome.
    unfold Plug.OnOffProperty in *.
    unfold Plug.setValue, try_catch, bind, debug, call_super_setValue, get_self,
      call_setStatus; simpl.
    destruct (super_setValue bool v (base (self w))) as [[ [] | e1 ] b']; simpl;
      [ | now split ].
    destruct (setStatus net _ _) as [r | e2]; simpl; [ | now split ].
    match goal with |- context [inspect_result r ?w'] =>
      destruct (inspect_result_frame r w') as ([ [] | e3 ] & c & ->) end;
      simpl; now split.
  - intros v w (b' & Hsuper & _) Hdown.
    unfold Plug.OnOffProperty in *.
    unfold Plug.setValue, try_catch, bind, debug, call_super_setValue, get_self,
      call_setStatus; simpl.
    rewrite Hsuper; simpl. rewrite Hdown; simpl.
    now rewrite <- app_assoc.
  - intros v w r (b' & Hsuper & _) Hsent Hstatus Hbody.
    unfold Plug.OnOffProperty in *.
    unfold Plug.setValue, try_catch, bind, debug, call_super_setValue, get_self,
      call_setStatus; simpl.
    rewrite Hsuper; simpl. rewrite Hsent; simpl.
    unfold inspect_result, bind, await. rewrite Hstatus, Hbody; simpl.
    now rewrite <- app_assoc.
  - intros O poll w Hfail.
    unfold Light.timer_tick, detach.
    destruct (poll w) as [[ [] | e' ] w']; simpl in *; [ discriminate | ].
    injection Hfail as ->. now repeat split.
  - intros T F set v w.
    unfold Light.setValue, try_catch, bind, debug, call_super_setValue; simpl.
    destruct (super_setValue T v (base (self w))) as [[ [] | e1 ] b']; simpl;
      [ | reflexivity ].
    match goal with |- context [detach ?m ?w'] =>
      destruct (detach_settles m w') as [Hf _];
      destruct (detach m w') as [x w''] end.
    simpl in *. now rewrite Hf.
  - intros Hfail w. now apply read_fails_rejects.
  - intros Hfail w. now apply read_fails_rejects.
  - intros Hfail w.
    exact (read_fails_rejects net "CT" e
             (fun result => if truthy result
                            then Light.update (tasmotaToKelvin (member_opt "CT" result))
                            else ret tt) w Hfail).
  - intros Hfail w. now apply read_fails_rejects.
  - intros Hfail w. now apply read_fails_rejects.
  - intros w Hfail.
    unfold Plug.updateValue, bind at 1, get_self.
    now apply read_fails_rejects.
Qed.

Lemma unreachable_read_fails (command : string) :
  read_fails Sample.unreachable command (NetworkError "ECONNREFUSED").
Proof. now left. Qed.

Lemma writes_fulfil_and_polls_reject_witness :
  Light.OnOff_poll Sample.unreachable (Sample.caching true)
  = (Rejected (NetworkError "ECONNREFUSED"),
     World (self (Sample.caching true)) [] [Get "Power"] [])
  /\ console (snd (Plug.setValue Sample.accepting Sample.unreachable true (Plug.fresh Sample.single)))
     = [LogSetValue; LogCouldNotSetValue (NetworkError "ECONNREFUSED")].
Proof.
  destruct (writes_fulfil_and_polls_reject Sample.accepting Sample.reciprocal
              Sample.lower_case Sample.no_numeral
              Sample.unreachable (NetworkError "ECONNREFUSED"))
    as (_ & Hlogged & _ & _ & _ & Hpoll & _).
  split.
  - apply (Hpoll (unreachable_read_fails "Power")).
  - apply Hlogged; [ eexists; split; reflexivity | reflexivity ].
Defined.

(** C8 as stated fails: with no device behind the transport the poll of
    the on/off property is rejected, nothing in the property catches or
    logs the error, and the timer that dropped the promise leaves the
    rejection unhandled. *)
Lemma poll_failure_leaves_the_property :
  fst (Light.OnOff_poll Sample.unreachable (Sample.caching true))
  = Rejected (NetworkError "ECONNREFUSED")
  /\ console (snd (Light.OnOff_poll Sample.unreachable (Sample.caching true))) = []
  /\ unhandled (snd (Light.timer_tick (Light.OnOff_poll Sample.unreachable)
                       (Sample.caching true)))
     = [NetworkError "ECONNREFUSED"]
  /\ unhandled (snd (Plug.poll_cycles [Sample.unreachable] (Plug.fresh Sample.single)))
     = [NetworkError "ECONNREFUSED"].
Proof. repeat split. Qed.

(** ** Composition of the light devices *)

(** C9.  [startPolling] of each light device registers one timer for
    every property the device holds and none for any other, all with the
    interval given, and enters the [startPolling] body of the device's own
    class and of each class it extends exactly once. *)
Theorem startPolling_registers_each_property_once
  (l : Device.light) (intervalMs : Z) :
  let trace := Device.startPolling l intervalMs [] in
  (forall p : Device.property_class,
      Device.registered p trace
      = match Device.properties l !! Device.name p with
        | Some q => if bool_decide (q = p) then 1 else 0
        | None => 0
        end)
  /\ (forall a : Device.light,
      Device.entered a trace = if Device.is_layer_of a l then 1 else 0)
  /\ (forall p ms, In (Device.SetInterval p ms) trace -> ms = intervalMs)
  /\ (l = Device.ColorCtLight ->
      trace = [Device.Enter Device.ColorCtLight; Device.Enter Device.ColorLight;
               Device.Enter Device.DimmableLight;
               Device.SetInterval Device.OnOffProperty intervalMs;
               Device.SetInterval Device.BrightnessProperty intervalMs;
               Device.SetInterval Device.ColorProperty intervalMs;
               Device.SetInterval Device.ColorTemperatureProperty intervalMs;
               Device.SetInterval Device.ColorModeProperty intervalMs]).
Proof.
  intros trace. subst trace. repeat split.
  - intros p. destruct l, p; vm_compute; reflexivity.
  - intros a. destruct l, a; vm_compute; reflexivity.
  - intros p ms Hin. destruct l; simpl in Hin;
      repeat (destruct Hin as [ Hin | Hin ]; [ congruence | ]); contradiction.
  - intros ->. reflexivity.
Qed.

Lemma startPolling_registers_each_property_once_witness :
  Device.startPolling Device.ColorCtLight 1000 []
  = [Device.Enter Device.ColorCtLight; Device.Enter Device.ColorLight;
     Device.Enter Device.DimmableLight;
     Device.SetInterval Device.OnOffProperty 1000;
     Device.SetInterval Device.BrightnessProperty 1000;
     Device.SetInterval Device.ColorProperty 1000;
     Device.SetInterval Device.ColorTemperatureProperty 1000;
     Device.SetInterval Device.ColorModeProperty 1000].
Proof.
  destruct (startPolling_registers_each_property_once Device.ColorCtLight 1000)
    as (_ & _ & _ & Hfull).
  apply Hfull. reflexivity.
Defined.

(** * Further properties of the light module *)

(** ** What the polls put on the wire *)

Lemma detach_frame {O A} (m : Async O A) (w : world O) :
  wire (snd (detach m w)) = wire (snd (m w))
  /\ console (snd (detach m w)) = console (snd (m w)).
Proof.
  unfold detach. destruct (m w) as [[a | e] w']; simpl; auto.
Qed.

(** ** A light notifies on every poll *)

Lemma OnOff_poll_self (net : transport) (w : world (object bool unit)) :
  self (snd (Light.OnOff_poll net w))
  = match Plug.reading net EmptyString with
    | Some b => Object (Property (Some b) (notifications (base (self w)) ++ [b]))
                       (fields (self w))
    | None => self w
    end.
Proof.
  unfold Light.OnOff_poll, Plug.reading, Light.update, bind, call_getStatus, await,
    setCachedValueAndNotify; simpl.
  change ("Power" +:+ EmptyString) with "Power".
  destruct (getStatus net "Power") as [r | e]; simpl; [ | reflexivity ].
  destruct (json_body r) as [j | e]; simpl; [ | reflexivity ].
  destruct (member "POWER" j) as [v | e]; simpl; [ | reflexivity ].
  destruct (loose_eq_ON v) as [b | e]; reflexivity.
Qed.

Lemma ticks_cons {O} (poll : transport -> Async O unit) (net : transport)
  (later : list transport) (w : world O) :
  Schedule.ticks poll (net :: later) w
  = Schedule.ticks poll later (snd (detach (poll net) w)).
Proof.
  simpl. unfold bind at 1, Light.timer_tick.
  destruct (detach_settles (poll net) w) as [Hf _].
  destruct (detach (poll net) w) as [r w']; simpl in *.
  now rewrite Hf.
Qed.

(** X2.  Over any run of timer ticks the on/off property of a light hands
    a value to the notifying setter on every poll that reads one, changed
    or not, and on no other; the cache ends on the last value read. *)
Theorem light_poll_notifies_every_time (nets : list transport) :
  forall w : world (object bool unit),
    let readings := omap (fun net => Plug.reading net EmptyString) nets in
    let after := self (snd (Schedule.ticks Light.OnOff_poll nets w)) in
    notifications (base after) = notifications (base (self w)) ++ readings
    /\ value (base after)
       = match last readings with
         | Some b => Some b
         | None => value (base (self w))
         end.
Proof.
  induction nets as [ | net later IH ]; intros w.
  - simpl. split; [ now rewrite app_nil_r | reflexivity ].
  - cbv zeta. rewrite ticks_cons.
    specialize (IH (snd (detach (Light.OnOff_poll net) w))).
    cbv zeta in IH. destruct IH as [Hn Hv].
    destruct (detach_settles (Light.OnOff_poll net) w) as [_ Hs].
    rewrite Hs, OnOff_poll_self in Hn, Hv.
    rewrite Hn, Hv.
    assert (Hcons : omap (fun net0 => Plug.reading net0 EmptyString) (net :: later)
                    = match Plug.reading net EmptyString with
                      | Some b => b :: omap (fun net0 => Plug.reading net0 EmptyString) later
                      | None => omap (fun net0 => Plug.reading net0 EmptyString) later
                      end) by reflexivity.
    rewrite Hcons.
    generalize (omap (fun net0 => Plug.reading net0 EmptyString) later) as rs.
    intros rs. destruct (Plug.reading net EmptyString) as [b | ]; simpl.
    + split; [ now rewrite <- app_assoc | ].
      rewrite (last_cons b rs). now destruct (last rs).
    + now split.
Qed.

(** ** The colour a poll shows *)

Lemma Color_poll_read (lowerCase : string -> string) (ToNumber : json -> settled number)
  (net : transport) (r : response) (j : json) (c : string)
  (w : world (object string number)) :
  getStatus net "Color" = Fulfilled r ->
  json_body r = Fulfilled j ->
  Light.color_or_empty j = JStr c ->
  let rgb :=
    if String.eqb (js_substring 0 6 c) "000000" && Nat.eqb (String.length c) 8
    then repeat3 (js_substring 6 8 c) else js_substring 0 6 c in
  let shown := "#" +:+ Light.toLowerCase lowerCase rgb in
  Light.Color_poll lowerCase ToNumber net w
  = (Fulfilled tt,
     World (Object (Property (Some shown) (notifications (base (self w)) ++ [shown]))
                   (if is_zero (fields (self w))
                    then halve (of_count (String.length c)) else fields (self w)))
           (console w) (wire w ++ [Get "Color"]) (unhandled w)).
Proof.
  intros Hr Hj Hc.
  rewrite (Color_poll_parsed lowerCase ToNumber net r j w Hr Hj), Hc.
  unfold Light.update, Light.half_length, bind, await, put_fields,
    setCachedValueAndNotify, ret; simpl.
  destruct (is_zero (fields (self w))); reflexivity.
Qed.

(** X4.  What the colour poll shows for a string the device reports: six
    characters are shown in lower case after #; of eight characters the
    first six are shown and the last two dropped, unless the first six
    are 000000, in which case the last two, the white channel, are shown
    three times over. *)
Theorem colour_poll_shows_white_for_black
  (lowerCase : string -> string) (ToNumber : json -> settled number)
  (net : transport) (r : response) (j : json) (rgb p : string)
  (w : world (object string number)) :
  getStatus net "Color" = Fulfilled r ->
  json_body r = Fulfilled j ->
  String.length rgb = 6 ->
  String.length p = 2 ->
  let toLowerCase := Light.toLowerCase lowerCase in
  let poll := Light.Color_poll lowerCase ToNumber in
  (Light.color_or_empty j = JStr rgb ->
   value (base (self (snd (poll net w))))
   = Some ("#" +:+ toLowerCase rgb))
  /\ (Light.color_or_empty j = JStr (rgb +:+ p) ->
      rgb <> "000000" ->
      value (base (self (snd (poll net w))))
      = Some ("#" +:+ toLowerCase rgb))
  /\ (Light.color_or_empty j = JStr ("000000" +:+ p) ->
      value (base (self (snd (poll net w))))
      = Some ("#" +:+ toLowerCase (p +:+ p +:+ p))).
Proof.
  intros Hr Hj Hrgb Hp toLowerCase poll. subst toLowerCase poll.
  destruct rgb as [ | c1 [ | c2 [ | c3 [ | c4 [ | c5 [ | c6 [ | c7 rest ] ] ] ] ] ] ];
    try discriminate.
  destruct (two_characters p Hp) as (p1 & p2 & ->).
  split; [ | split ].
  - intros Hc. rewrite (Color_poll_read lowerCase ToNumber net r j _ w Hr Hj Hc). simpl.
    now rewrite andb_false_r.
  - intros Hc Hblack. rewrite (Color_poll_read lowerCase ToNumber net r j _ w Hr Hj Hc).
    cbv zeta.
    assert (Hsub : js_substring 0 6
                     (String c1 (String c2 (String c3 (String c4 (String c5
                        (String c6 EmptyString))))) +:+ String p1 (String p2 EmptyString))
                   = String c1 (String c2 (String c3 (String c4 (String c5
                        (String c6 EmptyString)))))) by reflexivity.
    rewrite Hsub.
    destruct (String.eqb_spec
                (String c1 (String c2 (String c3 (String c4 (String c5
                   (String c6 EmptyString)))))) "000000") as [ Heq | _ ];
      [ contradiction | reflexivity ].
  - intros Hc. rewrite (Color_poll_read lowerCase ToNumber net r j _ w Hr Hj Hc).
    reflexivity.
Qed.

Lemma colour_poll_shows_white_for_black_witness :
  value (base (self (snd (Light.Color_poll Sample.lower_case Sample.no_numeral
    (Sample.always (JObj [("Color", JStr "00000080")])) Light.Color_new))))
  = Some "#808080".
Proof.
  destruct (colour_poll_shows_white_for_black Sample.lower_case Sample.no_numeral
              (Sample.always (JObj [("Color", JStr "00000080")]))
              (Response 200 "OK" (Fulfilled (JObj [("Color", JStr "00000080")])))
              (JObj [("Color", JStr "00000080")]) "FFFFFF" "80" Light.Color_new
              eq_refl eq_refl eq_refl eq_refl)
    as (_ & _ & Hwhite).
  apply Hwhite. reflexivity.
Defined.

(** ** A body without the expected field *)

Lemma member_of_opt (k : string) (j : json) :
  j <> JNull -> member k j = Fulfilled (member_opt k j).
Proof. destruct j; intros Hj; try reflexivity. congruence. Qed.

(** X5.  When the body of a status reply parses to something other than
    [null] and lacks the field a poll looks for, the polls differ: the
    on/off property caches false, the brightness caches [undefined], the
    colour caches the bare character # and leaves the channel width as it
    was, and the colour mode is rejected with a TypeError, leaving its
    cache alone.  All but the last still notify. *)
Theorem polls_on_absent_field
  (lowerCase : string -> string) (ToNumber : json -> settled number)
  (net : transport) (r : response) (j : json) :
  json_body r = Fulfilled j ->
  j <> JNull ->
  (getStatus net "Power" = Fulfilled r ->
   member_opt "POWER" j = None ->
   forall w,
     value (base (self (snd (Light.OnOff_poll net w)))) = Some false
     /\ notifications (base (self (snd (Light.OnOff_poll net w))))
        = notifications (base (self w)) ++ [false])
  /\ (getStatus net "Dimmer" = Fulfilled r ->
      member_opt "Dimmer" j = None ->
      forall w,
        value (base (self (snd (Light.Brightness_poll net w)))) = Some None
        /\ notifications (base (self (snd (Light.Brightness_poll net w))))
           = notifications (base (self w)) ++ [None])
  /\ (getStatus net "Color" = Fulfilled r ->
      member_opt "Color" j = None ->
      (forall w,
         value (base (self (snd (Light.Color_poll lowerCase ToNumber net w)))) = Some "#"
         /\ notifications (base (self (snd (Light.Color_poll lowerCase ToNumber net w))))
            = notifications (base (self w)) ++ ["#"]
         /\ same_number (fields (self (snd (Light.Color_poll lowerCase ToNumber net w))))
                        (fields (self w)))
      /\ (forall w,
            Light.ColorMode_poll net w
            = (Rejected TypeError,
               World (self w) (console w) (wire w ++ [Get "Color"]) (unhandled w)))).
Proof.
  intros Hj Hnull.
  split; [ | split ].
  - intros Hr Hm w.
    unfold Light.OnOff_poll, Light.update, bind, call_getStatus, await,
      setCachedValueAndNotify; simpl.
    rewrite Hr; simpl; rewrite Hj; simpl.
    rewrite (member_of_opt "POWER" j Hnull), Hm; simpl. now split.
  - intros Hr Hm w.
    unfold Light.Brightness_poll, Light.update, bind, call_getStatus, await,
      setCachedValueAndNotify; simpl.
    rewrite Hr; simpl; rewrite Hj; simpl.
    rewrite (member_of_opt "Dimmer" j Hnull), Hm; simpl. now split.
  - intros Hr Hm. split; intros w.
    + assert (Hc : Light.color_or_empty j = JStr EmptyString).
      { unfold Light.color_or_empty. now rewrite Hm. }
      rewrite (Color_poll_read lowerCase ToNumber net r j EmptyString w Hr Hj Hc). simpl.
      repeat split.
      destruct (fields (self w)) as [ | negative | q ]; simpl; try reflexivity.
      destruct (Qeq_bool q 0) eqn:E; simpl; [ | reflexivity ].
      apply Qeq_bool_iff in E. now rewrite E.
    + unfold Light.ColorMode_poll, bind, call_getStatus, await, throw; simpl.
      rewrite Hr; simpl; rewrite Hj; simpl.
      now rewrite (member_of_opt "Color" j Hnull), Hm.
Qed.

Lemma polls_on_absent_field_witness :
  value (base (self (snd (Light.Brightness_poll (Sample.always (JObj []))
                            (Sample.caching (Some (JNum (Finite 40))))))))
  = Some None
  /\ value (base (self (snd (Light.Color_poll Sample.lower_case Sample.no_numeral
                               (Sample.always (JObj [])) (Sample.colour_of_width 4)))))
     = Some "#".
Proof.
  destruct (polls_on_absent_field Sample.lower_case Sample.no_numeral
              (Sample.always (JObj []))
              (Response 200 "OK" (Fulfilled (JObj []))) (JObj []) eq_refl)
    as (_ & Hdimmer & Hcolor); [ discriminate | ].
  split.
  - apply (Hdimmer eq_refl eq_refl).
  - destruct (Hcolor eq_refl eq_refl) as [Hpoll _]. apply Hpoll.
Defined.

(** ** The colour mode *)

Lemma substring_is_prefix (p : string) :
  forall c, String.substring 0 (String.length p) c = p <-> exists rest, c = p +:+ rest.
Proof.
  induction p as [ | a p IH ]; intros c; simpl.
  - split; [ intros _; now exists c | intros _; now destruct c ].
  - destruct c as [ | b c ]; simpl.
    + split; [ discriminate | intros [rest Hrest]; discriminate ].
    + split.
      * intros Heq. injection Heq as -> Hsub.
        apply IH in Hsub. destruct Hsub as [rest ->]. now exists rest.
      * intros [rest Hrest]. injection Hrest as -> ->.
        f_equal. apply IH. now exists rest.
Qed.

(** X6.  The colour mode is read from a status query of its own.  For a
    colour string it is temperature exactly when the string starts with
    000000, and color otherwise, also for a string shorter than six
    characters; a Color that is absent or not a string rejects the poll
    with a TypeError and leaves the property as it was. *)
Theorem colour_mode_follows_rgb_prefix
  (net : transport) (r : response) (j : json) (w : world (object string unit)) :
  getStatus net "Color" = Fulfilled r ->
  json_body r = Fulfilled j ->
  (forall c, member "Color" j = Fulfilled (Some (JStr c)) ->
     exists mode,
       value (base (self (snd (Light.ColorMode_poll net w)))) = Some mode
       /\ notifications (base (self (snd (Light.ColorMode_poll net w))))
          = notifications (base (self w)) ++ [mode]
       /\ (mode = "temperature" \/ mode = "color")
       /\ (mode = "temperature" <-> exists rest, c = "000000" +:+ rest))
  /\ ((forall c, member "Color" j <> Fulfilled (Some (JStr c))) ->
      fst (Light.ColorMode_poll net w) = Rejected TypeError
      /\ self (snd (Light.ColorMode_poll net w)) = self w).
Proof.
  intros Hr Hj. split.
  - intros c Hc.
    unfold Light.ColorMode_poll, Light.update, bind, call_getStatus, await,
      setCachedValueAndNotify; simpl.
    rewrite Hr; simpl; rewrite Hj; simpl; rewrite Hc; simpl.
    pose proof (substring_is_prefix "000000" c) as Hprefix. simpl in Hprefix.
    change (String.substring 0 6 c) with (js_substring 0 6 c) in Hprefix.
    destruct (String.eqb (js_substring 0 6 c) "000000") eqn:E; simpl;
      [ apply String.eqb_eq in E | apply String.eqb_neq in E ].
    + exists "temperature".
      split; [ reflexivity | split; [ reflexivity | split; [ now left | split ] ] ].
      * intros _. now apply Hprefix.
      * reflexivity.
    + exists "color".
      split; [ reflexivity | split; [ reflexivity | split; [ now right | split ] ] ].
      * discriminate.
      * intros Hrest. apply Hprefix in Hrest. contradiction.
  - intros Hnot.
    unfold Light.ColorMode_poll, bind, call_getStatus, await, throw; simpl.
    rewrite Hr; simpl; rewrite Hj; simpl.
    destruct (member "Color" j) as [[ [ | b | q | c | items | ms ] | ] | e] eqn:Hm;
      simpl; try (now split).
    + now destruct (Hnot c).
    + destruct j; simpl in Hm; try discriminate. injection Hm as <-. now split.
Qed.

Lemma colour_mode_follows_rgb_prefix_witness :
  exists mode,
    value (base (self (snd (Light.ColorMode_poll
      (Sample.always (JObj [("Color", JStr "000000FF")])) (Sample.caching "color")))))
    = Some mode
    /\ (mode = "temperature" <-> exists rest, "000000FF" = "000000" +:+ rest).
Proof.
  destruct (colour_mode_follows_rgb_prefix
              (Sample.always (JObj [("Color", JStr "000000FF")]))
              (Response 200 "OK" (Fulfilled (JObj [("Color", JStr "000000FF")])))
              (JObj [("Color", JStr "000000FF")]) (Sample.caching "color")
              eq_refl eq_refl) as (Hstring & _).
  destruct (Hstring "000000FF" eq_refl) as (mode & Hvalue & _ & _ & Hiff).
  exists mode. now split.
Defined.

(** * Further properties of the write path *)

Lemma plug_setValue_self (super_setValue : base_setValue_type) (net : transport)
  (v : bool) (w : world Plug.OnOffProperty) :
  self (snd (Plug.setValue super_setValue net v w))
  = Object (snd (super_setValue bool v (base (self w)))) (fields (self w)).
Proof.
  unfold Plug.OnOffProperty in *.
  unfold Plug.setValue, try_catch, bind, debug, call_super_setValue, get_self,
    call_setStatus; simpl.
  destruct (super_setValue bool v (base (self w))) as [[ [] | e1 ] b']; simpl;
    [ | reflexivity ].
  destruct (setStatus net _ _) as [r | e2]; simpl; [ | reflexivity ].
  match goal with |- context [inspect_result r ?w'] =>
    destruct (inspect_result_frame r w') as ([ [] | e3 ] & c & ->) end;
    reflexivity.
Qed.

Lemma post_and_inspect_wire {O} (net : transport) (command : string) (p : payload)
  (w : world O) :
  wire (snd ((result <- call_setStatus net command p ;; inspect_result result) w))
  = wire w ++ [Post command p].
Proof.
  unfold bind, call_setStatus.
  destruct (setStatus net command p) as [r | e]; simpl; [ | reflexivity ].
  match goal with |- context [inspect_result r ?w'] =>
    destruct (inspect_result_frame r w') as (x & c & ->) end.
  reflexivity.
Qed.

Lemma light_setValue_wire {T F} (super_setValue : base_setValue_type)
  (set : T -> Async (object T F) unit) (v : T) (w : world (object T F))
  (b' : property T) (sent : list request) :
  (let w' := World (Object b' (fields (self w))) (console w ++ [LogSetValue])
                   (wire w) (unhandled w) in
   wire (snd (set v w')) = wire w' ++ sent) ->
  super_setValue T v (base (self w)) = (Fulfilled tt, b') ->
  wire (snd (Light.setValue super_setValue set v w)) = wire w ++ sent.
Proof.
  intros Hset Hsuper.
  unfold Light.setValue, try_catch, bind, debug, call_super_setValue; simpl.
  rewrite Hsuper; simpl.
  match goal with |- context [detach (set v) ?w'] =>
    destruct (detach_settles (set v) w') as [Hf _];
    destruct (detach_frame (set v) w') as [Hw _];
    destruct (detach (set v) w') as [x w''] eqn:E end.
  simpl in *. rewrite Hf. simpl. now rewrite Hw, Hset.
Qed.

Lemma Color_set_posts (manifest : Light.config) (net : transport) (v : string)
  (w : world (object string number)) :
  exists sent,
    wire (snd (Light.Color_set manifest net v w)) = wire w ++ [Post "Color" (PStr sent)].
Proof.
  unfold Light.Color_set, bind at 1, get_self.
  eexists. apply post_and_inspect_wire.
Qed.

(** X7.  A write that the base class refuses never reaches the device: no
    request is put on the wire, the refusal is logged, the cache is what
    the base class left, and the call still returns normally.  This holds
    for the plug's on/off property and for every writable light
    property. *)
Theorem refused_write_sends_nothing
  (super_setValue : base_setValue_type) (net : transport) (e : error) :
  (forall (v : bool) (w : world Plug.OnOffProperty) (b' : property bool),
      super_setValue bool v (base (self w)) = (Rejected e, b') ->
      Plug.setValue super_setValue net v w
      = (Fulfilled tt,
         World (Object b' (fields (self w)))
               (console w ++ [LogSetValue; LogCouldNotSetValue e])
               (wire w) (unhandled w)))
  /\ (forall (T F : Type) (set : T -> Async (object T F) unit) (v : T)
             (w : world (object T F)) (b' : property T),
      super_setValue T v (base (self w)) = (Rejected e, b') ->
      Light.setValue super_setValue set v w
      = (Fulfilled tt,
         World (Object b' (fields (self w)))
               (console w ++ [LogSetValue; LogCouldNotSetValue e])
               (wire w) (unhandled w))).
Proof.
  split.
  - intros v w b' Hsuper. unfold Plug.OnOffProperty in *.
    unfold Plug.setValue, try_catch, bind, debug, call_super_setValue; simpl.
    rewrite Hsuper; simpl. now rewrite <- app_assoc.
  - intros T F set v w b' Hsuper.
    unfold Light.setValue, try_catch, bind, debug, call_super_setValue; simpl.
    rewrite Hsuper; simpl. now rewrite <- app_assoc.
Qed.

Lemma refused_write_sends_nothing_witness :
  wire (snd (Plug.setValue Stub.read_only (Stub.accepting (JObj [])) true
               (Stub.polled "1" false))) = []
  /\ value (base (self (snd (Plug.setValue Stub.read_only (Stub.accepting (JObj [])) true
                               (Stub.polled "1" false))))) = Some false.
Proof.
  destruct (refused_write_sends_nothing Stub.read_only (Stub.accepting (JObj []))
              (PropertyError "Read-only property")) as [Hplug _].
  rewrite (Hplug true (Stub.polled "1" false) (Property (Some false) [false]) eq_refl).
  now split.
Defined.

(** X8.  A write that the base class accepts puts exactly one command on
    the wire and no status query, whatever the device answers: Power with
    the channel and ON or OFF for a plug, Power for a light, Dimmer with
    the value, CT with the converted value, and Color with one string. *)
Theorem accepted_write_posts_one_command
  (super_setValue : base_setValue_type) (kelvinToTasmota : jsval -> jsval)
  (manifest : Light.config) (net : transport) :
  (forall (v : bool) (w : world Plug.OnOffProperty) b',
      super_setValue bool v (base (self w)) = (Fulfilled tt, b') ->
      wire (snd (Plug.setValue super_setValue net v w))
      = wire w ++ [Post ("Power" +:+ Plug.channel (fields (self w)))
                        (PStr (if v then "ON" else "OFF"))])
  /\ (forall (v : bool) (w : world (object bool unit)) b',
      super_setValue bool v (base (self w)) = (Fulfilled tt, b') ->
      wire (snd (Light.setValue super_setValue (Light.OnOff_set net) v w))
      = wire w ++ [Post "Power" (PStr (if v then "ON" else "OFF"))])
  /\ (forall (v : jsval) (w : world (object jsval unit)) b',
      super_setValue jsval v (base (self w)) = (Fulfilled tt, b') ->
      wire (snd (Light.setValue super_setValue (Light.Brightness_set net) v w))
      = wire w ++ [Post "Dimmer" (PFmt v)])
  /\ (forall (v : jsval) (w : world (object jsval unit)) b',
      super_setValue jsval v (base (self w)) = (Fulfilled tt, b') ->
      wire (snd (Light.setValue super_setValue
                   (Light.ColorTemperature_set kelvinToTasmota net) v w))
      = wire w ++ [Post "CT" (PFmt (kelvinToTasmota v))])
  /\ (forall (v : string) (w : world (object string number)) b',
      super_setValue string v (base (self w)) = (Fulfilled tt, b') ->
      exists sent,
        wire (snd (Light.setValue super_setValue (Light.Color_set manifest net) v w))
        = wire w ++ [Post "Color" (PStr sent)]).
Proof.
  split; [ | split; [ | split; [ | split ] ] ].
  - intros v w b' Hsuper. unfold Plug.OnOffProperty in *.
    unfold Plug.setValue, try_catch, bind, debug, call_super_setValue, get_self,
      call_setStatus; simpl.
    rewrite Hsuper; simpl.
    destruct (setStatus net _ _) as [r | e2]; simpl; [ | reflexivity ].
    match goal with |- context [inspect_result r ?w'] =>
      destruct (inspect_result_frame r w') as ([ [] | e3 ] & c & ->) end;
      reflexivity.
  - intros v w b' Hsuper.
    apply (light_setValue_wire super_setValue _ v w b'); [ | exact Hsuper ].
    apply post_and_inspect_wire.
  - intros v w b' Hsuper.
    apply (light_setValue_wire super_setValue _ v w b'); [ | exact Hsuper ].
    apply post_and_inspect_wire.
  - intros v w b' Hsuper.
    apply (light_setValue_wire super_setValue _ v w b'); [ | exact Hsuper ].
    apply post_and_inspect_wire.
  - intros v w b' Hsuper.
    destruct (Color_set_posts manifest net v
                (World (Object b' (fields (self w))) (console w ++ [LogSetValue])
                       (wire w) (unhandled w))) as [sent Hsent].
    exists sent.
    apply (light_setValue_wire super_setValue _ v w b'); [ exact Hsent | exact Hsuper ].
Qed.

Lemma accepted_write_posts_one_command_witness :
  wire (snd (Plug.setValue Sample.accepting Sample.unreachable false (Stub.polled "2" true)))
  = [Post "Power2" (PStr "OFF")].
Proof.
  destruct (accepted_write_posts_one_command Sample.accepting Sample.reciprocal
              (Light.Config None) Sample.unreachable) as [Hplug _].
  apply (Hplug false (Stub.polled "2" true) (Property (Some false) [true; false])).
  reflexivity.
Defined.

(** ** The inspection of a command's result *)

(** X9.  What a write makes of the device's answer.  A status other than
    200 is logged without the body being looked at; with status 200 a
    body that fails to parse, or that is [null], rejects the inspection;
    a body without a truthy WARNING leaves no trace, also when it has a
    Command field; and a truthy WARNING is logged, followed by the Command
    only when there is a truthy one: alone when the Command is absent or
    falsy, and with the Command logged after it when that is truthy. *)
Theorem command_result_is_logged_on_warning_only
  {O : Type} (r : response) (w : world O) :
  (status r <> 200%Z ->
   inspect_result r w
   = (Fulfilled tt,
      World (self w) (console w ++ [LogCouldNotSetStatus (statusText r) (status r)])
            (wire w) (unhandled w)))
  /\ (status r = 200%Z ->
      (forall e, json_body r = Rejected e -> inspect_result r w = (Rejected e, w))
      /\ (json_body r = Fulfilled JNull -> inspect_result r w = (Rejected TypeError, w))
      /\ (forall j, json_body r = Fulfilled j -> j <> JNull ->
            truthy_val (member_opt "WARNING" j) = false ->
            inspect_result r w = (Fulfilled tt, w))
      /\ (forall j warning, json_body r = Fulfilled j ->
            member_opt "WARNING" j = Some warning ->
            truthy warning = true ->
            conversion_throws warning = false ->
            truthy_val (member_opt "Command" j) = false ->
            inspect_result r w
            = (Fulfilled tt,
               World (self w) (console w ++ [LogWarning warning]) (wire w)
                     (unhandled w)))
      /\ (forall j warning command, json_body r = Fulfilled j ->
            member_opt "WARNING" j = Some warning ->
            truthy warning = true ->
            conversion_throws warning = false ->
            member_opt "Command" j = Some command ->
            truthy command = true ->
            conversion_throws command = false ->
            inspect_result r w
            = (Fulfilled tt,
               World (self w) (console w ++ [LogWarning warning; LogCommand command])
                     (wire w) (unhandled w)))).
Proof.
  split.
  - apply inspect_result_refused.
  - intros Hok. unfold inspect_result. rewrite Hok. simpl.
    split; [ | split; [ | split; [ | split ] ] ].
    + intros e He. unfold bind, await. now rewrite He.
    + intros Hnull. unfold bind, await. now rewrite Hnull.
    + intros j Hj Hnull Hw. unfold bind, await, ret. rewrite Hj.
      rewrite (member_of_opt "WARNING" j Hnull).
      destruct (member_opt "WARNING" j) as [ warning | ]; simpl in *;
        [ rewrite Hw | ]; now destruct w.
    + intros j warning Hj Hw Ht Hc Hcmd.
      assert (Hnull : j <> JNull) by (intros ->; discriminate).
      unfold bind, await, ret, debug, interpolate. rewrite Hj.
      rewrite (member_of_opt "WARNING" j Hnull), Hw, Ht, Hc. simpl.
      rewrite (member_of_opt "Command" j Hnull).
      destruct (member_opt "Command" j) as [ c | ]; simpl in *;
        [ now rewrite Hcmd | reflexivity ].
    + intros j warning command Hj Hw Ht Hc Hcmd Htc Hcc.
      assert (Hnull : j <> JNull) by (intros ->; discriminate).
      unfold bind, await, ret, debug, interpolate. rewrite Hj.
      rewrite (member_of_opt "WARNING" j Hnull), Hw, Ht, Hc. simpl.
      rewrite (member_of_opt "Command" j Hnull), Hcmd, Htc, Hcc. simpl.
      now rewrite <- app_assoc.
Qed.

Lemma command_result_is_logged_on_warning_only_witness :
  console (snd (inspect_result
                  (Response 200 "OK" (Fulfilled (JObj [("Command", JStr "Unknown")])))
                  Sample.start)) = []
  /\ console (snd (inspect_result
                     (Response 401 "Unauthorized" (Rejected (SyntaxError "Unexpected token")))
                     Sample.start))
     = [LogCouldNotSetStatus "Unauthorized" 401]
  /\ console (snd (inspect_result
                     (Response 200 "OK"
                        (Fulfilled (JObj [("WARNING", JStr "Need user=x");
                                          ("Command", JStr "Unknown")])))
                     Sample.start))
     = [LogWarning (JStr "Need user=x"); LogCommand (JStr "Unknown")].
Proof.
  destruct (command_result_is_logged_on_warning_only
              (Response 200 "OK"
                 (Fulfilled (JObj [("WARNING", JStr "Need user=x");
                                   ("Command", JStr "Unknown")])))
              Sample.start) as [_ Hboth].
  destruct (Hboth eq_refl) as (_ & _ & _ & _ & Hlogged).
  destruct (command_result_is_logged_on_warning_only
              (Response 200 "OK" (Fulfilled (JObj [("Command", JStr "Unknown")])))
              Sample.start) as [_ Hok].
  destruct (Hok eq_refl) as (_ & _ & Hquiet & _).
  destruct (command_result_is_logged_on_warning_only
              (Response 401 "Unauthorized" (Rejected (SyntaxError "Unexpected token")))
              Sample.start) as [Hrefused _].
  split; [ | split ].
  - rewrite (Hquiet (JObj [("Command", JStr "Unknown")]) eq_refl); [ reflexivity | | ].
    + discriminate.
    + reflexivity.
  - rewrite Hrefused; [ reflexivity | discriminate ].
  - rewrite (Hlogged _ (JStr "Need user=x") (JStr "Unknown") eq_refl eq_refl eq_refl
               eq_refl eq_refl eq_refl eq_refl).
    reflexivity.
Defined.

(** ** Which colours the white channel takes over *)

Lemma grey_exactly (v : string) :
  String.eqb v ("#" +:+ repeat3 (js_substring 1 3 v)) = true
  <-> v = "#" \/ exists p, String.length p = 2 /\ v = "#" +:+ p +:+ p +:+ p.
Proof.
  destruct v as [ | c0 [ | a [ | b rest ] ] ].
  - simpl. split; [ discriminate | ].
    intros [ H | (p & _ & H) ]; discriminate.
  - unfold js_substring, repeat3. simpl.
    destruct (Ascii.eqb_spec c0 "#"%char) as [ -> | Hne ].
    + split; [ now left | reflexivity ].
    + split; [ discriminate | ].
      intros [ H | (p & Hp & H) ]; [ congruence | ].
      destruct (two_characters p Hp) as (p1 & p2 & ->). discriminate.
  - unfold js_substring, repeat3. simpl.
    split.
    + intros H. destruct (Ascii.eqb c0 "#"%char); [ | discriminate ].
      destruct (Ascii.eqb a a); discriminate.
    + intros [ H | (p & Hp & H) ]; [ discriminate | ].
      destruct (two_characters p Hp) as (p1 & p2 & ->). discriminate.
  - unfold js_substring, repeat3.
    assert (Hpair : String.substring 1 (3 - 1) (String c0 (String a (String b rest)))
                    = String a (String b EmptyString))
      by (destruct rest; reflexivity).
    rewrite Hpair.
    split.
    + intros H. apply String.eqb_eq in H. right.
      exists (String a (String b EmptyString)). split; [ reflexivity | exact H ].
    + intros [ H | (p & Hp & H) ]; [ discriminate | ].
      destruct (two_characters p Hp) as (p1 & p2 & ->).
      simpl in H. injection H as -> -> -> ->.
      apply String.eqb_eq. reflexivity.
Qed.

(** X10.  With [useWhiteLedInColorMode] set and a channel width above
    three, the colour posted differs from the colour written exactly when
    the written string is # followed by three copies of one pair of
    characters, or is the bare character #; it is then #000000 followed
    by that pair (by nothing, for the bare #).  Every other string is
    posted as written. *)
Theorem white_led_rewrites_exactly_greys
  (manifest : Light.config) (e : Light.experimental_config) (net : transport)
  (w : world (object string number)) (v : string) :
  Light.experimental manifest = Some e ->
  Light.useWhiteLedInColorMode e = true ->
  wider_than 3 (fields (self w)) ->
  let posted := wire (snd (Light.Color_set manifest net v w)) in
  let grey := v = "#" \/ exists p, String.length p = 2 /\ v = "#" +:+ p +:+ p +:+ p in
  (grey -> posted = wire w ++ [Post "Color" (PStr ("#000000" +:+ js_substring 1 3 v))])
  /\ (~ grey -> posted = wire w ++ [Post "Color" (PStr v)]).
Proof.
  intros He Hflag Hwidth posted grey. subst posted grey.
  assert (Hwide : above 3 (fields (self w)) = true) by now apply above_iff.
  split; intros Hgrey.
  - apply grey_exactly in Hgrey.
    apply Color_set_wire.
    unfold Light.Color_set, bind at 1, get_self. now rewrite He, Hflag, Hwide, Hgrey.
  - apply Color_set_wire.
    unfold Light.Color_set, bind at 1, get_self. rewrite He, Hflag, Hwide.
    destruct (String.eqb v ("#" +:+ repeat3 (js_substring 1 3 v))) eqn:E;
      [ | reflexivity ].
    apply grey_exactly in E. contradiction.
Qed.

Lemma white_led_rewrites_exactly_greys_witness :
  wire (snd (Light.Color_set (Light.Config (Some (Light.Experimental true)))
               Sample.unreachable "#" (Sample.colour_of_width 4)))
  = [Post "Color" (PStr "#000000")]
  /\ wire (snd (Light.Color_set (Light.Config (Some (Light.Experimental true)))
                  Sample.unreachable "#888" (Sample.colour_of_width 4)))
     = [Post "Color" (PStr "#888")].
Proof.
  split.
  - destruct (white_led_rewrites_exactly_greys
                (Light.Config (Some (Light.Experimental true))) (Light.Experimental true)
                Sample.unreachable (Sample.colour_of_width 4) "#"
                eq_refl eq_refl eq_refl) as [Hgrey _].
    apply Hgrey. now left.
  - destruct (white_led_rewrites_exactly_greys
                (Light.Config (Some (Light.Experimental true))) (Light.Experimental true)
                Sample.unreachable (Sample.colour_of_width 4) "#888"
                eq_refl eq_refl eq_refl) as [_ Hother].
    apply Hother. intros [ H | (p & Hp & H) ]; [ discriminate | ].
    destruct (two_characters p Hp) as (p1 & p2 & ->). discriminate.
Defined.

(** X11.  Without the experimental settings, with [useWhiteLedInColorMode]
    off, or with a channel width that is not above three (zero, before
    the first colour was read, included), every colour is posted as
    written, greys too. *)
Theorem colour_is_posted_as_written_without_white
  (manifest : Light.config) (net : transport) (w : world (object string number))
  (v : string) :
  (Light.experimental manifest = None
   \/ (exists e, Light.experimental manifest = Some e
                 /\ Light.useWhiteLedInColorMode e = false)
   \/ ~ wider_than 3 (fields (self w))) ->
  wire (snd (Light.Color_set manifest net v w)) = wire w ++ [Post "Color" (PStr v)].
Proof.
  intros Hcases. apply Color_set_wire.
  unfold Light.Color_set, bind at 1, get_self.
  destruct Hcases as [ -> | [ (e & -> & ->) | Hnarrow ] ]; try reflexivity.
  assert (Hnot : above 3 (fields (self w)) = false).
  { destruct (above 3 (fields (self w))) eqn:E; [ | reflexivity ].
    apply above_iff in E. contradiction. }
  rewrite Hnot. simpl.
  destruct (Light.experimental manifest) as [ e | ]; [ | reflexivity ].
  now destruct (Light.useWhiteLedInColorMode e).
Qed.

Lemma colour_is_posted_as_written_without_white_witness :
  wire (snd (Light.Color_set (Light.Config (Some (Light.Experimental true)))
               Sample.unreachable "#808080" Light.Color_new))
  = [Post "Color" (PStr "#808080")].
Proof.
  apply (colour_is_posted_as_written_without_white
           (Light.Config (Some (Light.Experimental true))) Sample.unreachable
           Light.Color_new "#808080").
  right; right. discriminate.
Defined.

(** * Further properties of the plug *)

(** ** A write and the change detection of the poll *)

(** X12.  [setValue] of a plug's on/off property never touches
    [lastState].  So when a value is written and the device then goes on
    reporting what the last poll had read, the poll sees no change: it
    neither notifies nor replaces the cache, and the written value stays
    cached although the device reports another. *)
Theorem plug_poll_keeps_written_value
  (super_setValue : base_setValue_type) (net_write net_poll : transport)
  (v b : bool) (w : world Plug.OnOffProperty) :
  caches super_setValue v (base (self w)) ->
  Plug.lastState (fields (self w)) = Some b ->
  Plug.reading net_poll (Plug.channel (fields (self w))) = Some b ->
  let written := snd (Plug.setValue super_setValue net_write v w) in
  let polled := snd (Plug.updateValue net_poll written) in
  fields (self written) = fields (self w)
  /\ value (base (self polled)) = Some v
  /\ notifications (base (self polled)) = notifications (base (self written)).
Proof.
  intros (b' & Hsuper & Hvalue) Hlast Hread written polled.
  assert (Hwritten : self written = Object b' (fields (self w))).
  { subst written. rewrite plug_setValue_self.
    unfold Plug.OnOffProperty in *. now rewrite Hsuper. }
  assert (Hpolled : self polled = self written).
  { subst polled. rewrite updateValue_self. cbv zeta.
    rewrite Hwritten. simpl. rewrite Hread, Hlast. simpl.
    now rewrite Bool.eqb_reflx. }
  rewrite Hpolled, Hwritten. simpl. auto.
Qed.

Lemma plug_poll_keeps_written_value_witness :
  value (base (self (snd (Plug.updateValue
    (Stub.accepting (JObj [("POWER", JStr "OFF")]))
    (snd (Plug.setValue Sample.accepting Sample.unreachable true
            (Stub.polled "1" false)))))))
  = Some true.
Proof.
  destruct (plug_poll_keeps_written_value Sample.accepting Sample.unreachable
              (Stub.accepting (JObj [("POWER", JStr "OFF")])) true false
              (Stub.polled "1" false)) as (_ & Hvalue & _).
  - eexists; split; reflexivity.
  - reflexivity.
  - reflexivity.
  - exact Hvalue.
Defined.

(** ** The list the probe returns *)

Lemma isAvailable_frame (net : transport) (i : nat) (w : world unit) :
  exists x c,
    Plug.isAvailable net i w
    = (x, World (self w) c (wire w ++ [Plug.power_query i]) (unhandled w)).
Proof.
  unfold Plug.isAvailable, Plug.power_query, bind, call_getStatus, await, debug, ret;
    simpl.
  destruct (getStatus net _) as [r | e]; simpl; [ | eauto ].
  destruct (json_body r) as [j | e]; simpl; [ | eauto ].
  destruct (member _ j) as [v | e]; simpl; [ | eauto ].
  destruct (strict_eq_str v "ON" || strict_eq_str v "OFF"); simpl; eauto.
Qed.

Lemma probe_loop_ascending (net : transport) (n : nat) :
  forall (i : nat) (acc found : list nat) (w : world unit),
    fst (Plug.probe_loop net n i acc w) = Fulfilled found ->
    exists more,
      found = acc ++ more
      /\ StronglySorted lt more
      /\ Forall (fun k => i <= k < i + n) more
      /\ wire (snd (Plug.probe_loop net n i acc w))
         = wire w ++ map Plug.power_query (seq i n).
Proof.
  induction n as [ | n IH ]; intros i acc found w Hf; simpl in *.
  - injection Hf as <-. exists []. rewrite !app_nil_r.
    repeat split; constructor.
  - unfold bind in *.
    destruct (isAvailable_frame net i w) as (x & c & Hx). rewrite Hx in *.
    destruct x as [ available | e ]; [ | discriminate ].
    destruct (IH (S i) _ found _ Hf) as (more & Hfound & Hsorted & Hrange & Hwire).
    assert (Hlater : Forall (fun k => i <= k < i + S n) more).
    { eapply Forall_impl; [ exact Hrange | ]. simpl. intros k Hk. lia. }
    assert (Hwire' : wire (snd (Plug.probe_loop net n (S i)
                                  (if available then acc ++ [i] else acc)
                                  (World (self w) c (wire w ++ [Plug.power_query i])
                                         (unhandled w))))
                     = wire w ++ Plug.power_query i :: map Plug.power_query (seq (S i) n)).
    { rewrite Hwire. simpl. now rewrite <- app_assoc. }
    destruct available.
    + exists (i :: more). subst found. rewrite <- app_assoc.
      split; [ reflexivity | split; [ | split; [ | exact Hwire' ] ] ].
      * constructor; [ exact Hsorted | ].
        eapply Forall_impl; [ exact Hrange | ]. simpl. intros k Hk. lia.
      * constructor; [ lia | exact Hlater ].
    + exists more. auto.
Qed.

(** X13.  Whatever the transport answers, a channel list that
    [getAvailableChannels] returns is strictly ascending, so free of
    repetitions, holds only numbers from 1 to 9, and was obtained with
    exactly the nine queries POWER1 to POWER9, in that order. *)
Theorem probed_channels_are_ascending
  (net : transport) (w : world unit) (channels : list nat) :
  fst (Plug.getAvailableChannels net w) = Fulfilled channels ->
  StronglySorted lt channels
  /\ NoDup channels
  /\ Forall (fun k => 1 <= k <= 9) channels
  /\ wire (snd (Plug.getAvailableChannels net w))
     = wire w ++ map Plug.power_query [1; 2; 3; 4; 5; 6; 7; 8; 9].
Proof.
  unfold Plug.getAvailableChannels. change (10 - 1) with 9. intros Hf.
  destruct (probe_loop_ascending net 9 1 [] channels w Hf)
    as (more & -> & Hsorted & Hrange & Hwire).
  simpl. repeat split; auto.
  - clear Hrange Hwire Hf. induction Hsorted as [ | k l Hl IH Hk ]; constructor; auto.
    intros Hin. rewrite Forall_forall in Hk. specialize (Hk k Hin). lia.
  - eapply Forall_impl; [ exact Hrange | ]. simpl. intros k Hk. lia.
Qed.

Lemma probed_channels_are_ascending_witness :
  StronglySorted lt [1; 2; 3; 4; 5]
  /\ wire (snd (Plug.getAvailableChannels Sample.five_relays Sample.start))
     = map Plug.power_query [1; 2; 3; 4; 5; 6; 7; 8; 9].
Proof.
  destruct (probed_channels_are_ascending Sample.five_relays Sample.start
              [1; 2; 3; 4; 5] eq_refl) as (Hsorted & _ & _ & Hwire).
  split; [ exact Hsorted | exact Hwire ].
Defined.

(** * Properties of the plug device *)

(** ** The switches the constructor creates *)

Lemma string_of_nat_inj (n m : nat) : string_of_nat n = string_of_nat m -> n = m.
Proof.
  unfold string_of_nat. intros H.
  apply (f_equal NilEmpty.uint_of_string) in H.
  rewrite !NilEmpty.usu in H. injection H as H.
  now apply DecimalNat.Unsigned.to_uint_inj.
Qed.

Lemma string_of_nat_nonempty (n : nat) : string_of_nat n <> EmptyString.
Proof.
  unfold string_of_nat. intros H.
  apply (f_equal NilEmpty.uint_of_string) in H.
  rewrite NilEmpty.usu in H. simpl in H. injection H as H.
  pose proof (DecimalNat.Unsigned.of_to n) as Hn. rewrite H in Hn.
  simpl in Hn. subst n. discriminate.
Qed.

Lemma channel_id_starts_on (c : nat) : exists rest, PowerPlug.channel_id c = "on" +:+ rest.
Proof.
  unfold PowerPlug.channel_id. destruct (Nat.eqb c 1); [ now exists EmptyString | eauto ].
Qed.

Lemma channel_id_inj (c c' : nat) :
  PowerPlug.channel_id c = PowerPlug.channel_id c' -> c = c'.
Proof.
  unfold PowerPlug.channel_id.
  destruct (Nat.eqb_spec c 1) as [ -> | Hc ], (Nat.eqb_spec c' 1) as [ -> | Hc' ];
    simpl; intros H.
  - reflexivity.
  - injection H as H. symmetry in H. now apply string_of_nat_nonempty in H.
  - injection H as H. now apply string_of_nat_nonempty in H.
  - injection H as H. now apply string_of_nat_inj.
Qed.

Lemma add_channels_spec (channels : list nat) :
  forall (d : PowerPlug.device) (log : list PowerPlug.line),
    let d' := fst (PowerPlug.add_channels channels d log) in
    PowerPlug.onOffProperties d'
    = PowerPlug.onOffProperties d ++ map PowerPlug.channel_switch channels
    /\ (forall k, (forall c, c ∈ channels -> PowerPlug.channel_id c <> k) ->
          PowerPlug.properties d' !! k = PowerPlug.properties d !! k)
    /\ (NoDup channels ->
        forall i c, channels !! i = Some c ->
          PowerPlug.properties d' !! PowerPlug.channel_id c
          = Some (PowerPlug.OnOffAt (length (PowerPlug.onOffProperties d) + i)))
    /\ PowerPlug.name d' = PowerPlug.name d
    /\ PowerPlug.voltageProperty d' = PowerPlug.voltageProperty d
    /\ PowerPlug.currentProperty d' = PowerPlug.currentProperty d
    /\ PowerPlug.powerProperty d' = PowerPlug.powerProperty d
    /\ PowerPlug.temperatureProperty d' = PowerPlug.temperatureProperty d.
Proof.
  induction channels as [ | c rest IH ]; intros d log; cbv zeta.
  - simpl. rewrite app_nil_r. repeat split; auto.
    intros _ i c Hi. discriminate.
  - simpl PowerPlug.add_channels.
    specialize (IH (PowerPlug.add_on_off (PowerPlug.channel_switch c) d)
                   (log ++ [PowerPlug.LogCreating c])).
    cbv zeta in IH. destruct IH as (Hs & Hother & Hat & Hname & Hv & Hc & Hp & Ht).
    split; [ | split; [ | split ] ].
    + rewrite Hs. simpl. now rewrite <- app_assoc.
    + intros k Hk. rewrite Hother.
      * simpl. apply lookup_insert_ne. apply Hk. left.
      * intros c' Hc'. apply Hk. now right.
    + intros Hnodup i c' Hi.
      apply NoDup_cons in Hnodup as [Hfresh Hnodup].
      destruct i as [ | i ]; simpl in Hi.
      * injection Hi as <-. rewrite Hother.
        -- simpl. rewrite Nat.add_0_r. apply lookup_insert_eq.
        -- intros c' Hc' Heq. apply channel_id_inj in Heq. now subst c'.
      * rewrite (Hat Hnodup i c' Hi). simpl. rewrite length_app. simpl.
        do 2 f_equal. lia.
    + simpl in *. auto.
Qed.

Lemma channel_id_not_telemetry (c : nat) :
  PowerPlug.channel_id c <> "voltage" /\ PowerPlug.channel_id c <> "current"
  /\ PowerPlug.channel_id c <> "power" /\ PowerPlug.channel_id c <> "temperature".
Proof.
  destruct (channel_id_starts_on c) as [rest ->]. repeat split; discriminate.
Qed.

Lemma updatePowerProperties_keeps (data : gmap string PowerPlug.Data)
  (d : PowerPlug.device) :
  let d' := snd (PowerPlug.updatePowerProperties data d) in
  PowerPlug.onOffProperties d' = PowerPlug.onOffProperties d
  /\ PowerPlug.properties d' = PowerPlug.properties d
  /\ PowerPlug.name d' = PowerPlug.name d
  /\ (is_Some (PowerPlug.voltageProperty d') <-> is_Some (PowerPlug.voltageProperty d))
  /\ (is_Some (PowerPlug.currentProperty d') <-> is_Some (PowerPlug.currentProperty d))
  /\ (is_Some (PowerPlug.powerProperty d') <-> is_Some (PowerPlug.powerProperty d))
  /\ fst <$> PowerPlug.temperatureProperty d' = fst <$> PowerPlug.temperatureProperty d.
Proof.
  unfold PowerPlug.updatePowerProperties.
  destruct d as [n sw v p c t ps]; simpl.
  destruct t as [[dataName tp] | ]; [ destruct (PowerPlug.value_under dataName data) | ];
    simpl; repeat split; try reflexivity;
    repeat match goal with
           | |- context [match ?x with _ => _ end] => destruct x
           end; auto.
Qed.

(** What the constructor builds before it creates the telemetry
    properties. *)
Lemma new_switches
  (find : gmap string PowerPlug.Data -> option (string * PowerPlug.Data))
  (id : string) (experimental : option PowerPlug.flags)
  (data : gmap string PowerPlug.Data) (channels : list nat)
  (d : PowerPlug.device) (log : list PowerPlug.line) :
  PowerPlug.new find id experimental data channels = (Fulfilled d, log) ->
  let start :=
    PowerPlug.Device (PowerPlug.replace_first ".local" EmptyString id)
                     [] None None None None ∅ in
  let multi :=
    match experimental with
    | Some f => PowerPlug.multiChannelRelay f && negb (Nat.eqb (length channels) 0)
    | None => false
    end in
  let switched :=
    if multi then fst (PowerPlug.add_channels channels start [])
    else PowerPlug.add_on_off PowerPlug.single_switch start in
  PowerPlug.onOffProperties d = PowerPlug.onOffProperties switched
  /\ forall k, k <> "voltage" -> k <> "current" -> k <> "power" -> k <> "temperature" ->
       PowerPlug.properties d !! k = PowerPlug.properties switched !! k.
Proof.
  unfold PowerPlug.new. cbv zeta.
  set (start := PowerPlug.Device _ [] None None None None ∅).
  set (multi := match experimental with
                | Some f => _
                | None => false
                end).
  assert (Hpair : (if multi then PowerPlug.add_channels channels start []
                   else (PowerPlug.add_on_off PowerPlug.single_switch start, []))
                  = (if multi then fst (PowerPlug.add_channels channels start [])
                     else PowerPlug.add_on_off PowerPlug.single_switch start,
                     if multi then snd (PowerPlug.add_channels channels start [])
                     else [])).
  { destruct multi; [ now destruct (PowerPlug.add_channels channels start []) | reflexivity ]. }
  rewrite Hpair. clear Hpair.
  set (switched := if multi then _ else _).
  match goal with
  | |- match PowerPlug.updatePowerProperties data ?built with _ => _ end = _ -> _ =>
      pose proof (updatePowerProperties_keeps data built) as Hkeep;
      destruct (PowerPlug.updatePowerProperties data built) as [[ [] | e ] d'] eqn:E;
      [ | discriminate ];
      assert (Hsw : PowerPlug.onOffProperties built = PowerPlug.onOffProperties switched);
      [ | assert (Hps : forall k, k <> "voltage" -> k <> "current" -> k <> "power" ->
                          k <> "temperature" ->
                          PowerPlug.properties built !! k
                          = PowerPlug.properties switched !! k) ]
  end.
  - repeat match goal with
           | |- context [match ?x with _ => _ end] => destruct x
           end; reflexivity.
  - intros k Hv Hc Hp Ht.
    repeat match goal with
           | |- context [match ?x with _ => _ end] => destruct x
           end; simpl; rewrite ?lookup_insert_ne by congruence; reflexivity.
  - intros H. injection H as <- _. cbv zeta in Hkeep. simpl in Hkeep.
    destruct Hkeep as (Hk1 & Hk2 & _).
    split; [ now rewrite Hk1 | ].
    intros k Hv Hc Hp Ht. rewrite Hk2. now apply Hps.
Qed.

Lemma switch_ids (channels : list nat) :
  map PowerPlug.id (map PowerPlug.channel_switch channels)
  = map PowerPlug.channel_id channels.
Proof.
  induction channels as [ | c rest IH ]; simpl; [ reflexivity | now rewrite IH ].
Qed.

(** X14.  With the multi-channel flag set, the constructor given a
    non-empty list of distinct channels (such as the probe returns) makes
    one switch per channel, in order: its id is on for channel 1 and on
    followed by the number for any other, ids that are pairwise distinct;
    it sends its commands to Power followed by the number; and the
    device's property map leads from each id to the switch of that
    channel. *)
Theorem plug_has_one_switch_per_channel
  (find : gmap string PowerPlug.Data -> option (string * PowerPlug.Data))
  (id : string) (f : PowerPlug.flags) (data : gmap string PowerPlug.Data)
  (channels : list nat) (d : PowerPlug.device) (log : list PowerPlug.line) :
  PowerPlug.multiChannelRelay f = true ->
  channels <> [] ->
  NoDup channels ->
  PowerPlug.new find id (Some f) data channels = (Fulfilled d, log) ->
  PowerPlug.onOffProperties d = map PowerPlug.channel_switch channels
  /\ NoDup (map PowerPlug.id (PowerPlug.onOffProperties d))
  /\ (forall i c, channels !! i = Some c ->
        PowerPlug.properties d !! PowerPlug.channel_id c = Some (PowerPlug.OnOffAt i)
        /\ exists p, PowerPlug.onOffProperties d !! i = Some p
                     /\ PowerPlug.id p = PowerPlug.channel_id c
                     /\ Plug.channel (fields (PowerPlug.switch p)) = string_of_nat c).
Proof.
  intros Hflag Hne Hnodup Hnew.
  apply new_switches in Hnew. cbv zeta in Hnew. rewrite Hflag in Hnew.
  destruct channels as [ | c0 rest ]; [ congruence | ].
  simpl negb in Hnew. simpl andb in Hnew. cbv iota in Hnew.
  destruct Hnew as [Hsw Hps].
  match type of Hsw with
  | _ = PowerPlug.onOffProperties (fst (PowerPlug.add_channels ?cs ?s ?l)) =>
      pose proof (add_channels_spec cs s l) as Hspec
  end.
  cbv zeta in Hspec. destruct Hspec as (Hs & _ & Hat & _).
  rewrite Hs in Hsw.
  change (PowerPlug.onOffProperties d = map PowerPlug.channel_switch (c0 :: rest)) in Hsw.
  split; [ exact Hsw | split ].
  - rewrite Hsw, switch_ids.
    assert (Hinj : Inj eq eq PowerPlug.channel_id)
      by (intros x y Hxy; now apply channel_id_inj).
    now apply (NoDup_fmap_2 PowerPlug.channel_id).
  - intros i c Hi. split.
    + destruct (channel_id_not_telemetry c) as (Hv & Hc & Hp & Ht).
      rewrite (Hps _ Hv Hc Hp Ht). rewrite (Hat Hnodup i c Hi). reflexivity.
    + exists (PowerPlug.channel_switch c). rewrite Hsw.
      split; [ | now split ].
      change (map PowerPlug.channel_switch (c0 :: rest) !! i)
        with ((PowerPlug.channel_switch <$> (c0 :: rest)) !! i).
      now rewrite list_lookup_fmap, Hi.
Qed.

Lemma plug_has_one_switch_per_channel_witness :
  match PlugSample.built with
  | (Fulfilled d, _) =>
      PowerPlug.properties d !! "on3" = Some (PowerPlug.OnOffAt 1)
      /\ map PowerPlug.id (PowerPlug.onOffProperties d) = ["on"; "on3"]
  | (Rejected _, _) => False
  end.
Proof.
  destruct PlugSample.built as [[ d | e ] log] eqn:E.
  - assert (Hnodup : NoDup [1; 3]) by (apply (bool_decide_unpack (NoDup [1; 3])); vm_compute; exact I).
    destruct (plug_has_one_switch_per_channel PlugSample.ds18b20 "plug.local"
                PlugSample.all_flags PlugSample.metered [1; 3] d log
                eq_refl ltac:(discriminate) Hnodup E) as (Hsw & _ & Hat).
    split.
    + apply (Hat 1 3 eq_refl).
    + now rewrite Hsw.
  - vm_compute in E. discriminate.
Defined.

(** X15.  Without the experimental settings, with the multi-channel flag
    off, or with an empty channel list, the constructor makes a single
    switch whatever channels were detected: its id is on, it sends its
    commands to Power without a number, and the property map leads from
    on to it. *)
Theorem plug_without_channels_has_one_switch
  (find : gmap string PowerPlug.Data -> option (string * PowerPlug.Data))
  (id : string) (experimental : option PowerPlug.flags)
  (data : gmap string PowerPlug.Data) (channels : list nat)
  (d : PowerPlug.device) (log : list PowerPlug.line) :
  (experimental = None
   \/ (exists f, experimental = Some f /\ PowerPlug.multiChannelRelay f = false)
   \/ channels = []) ->
  PowerPlug.new find id experimental data channels = (Fulfilled d, log) ->
  PowerPlug.onOffProperties d = [PowerPlug.single_switch]
  /\ PowerPlug.properties d !! "on" = Some (PowerPlug.OnOffAt 0)
  /\ Plug.channel (fields (PowerPlug.switch PowerPlug.single_switch)) = EmptyString.
Proof.
  intros Hcases Hnew.
  apply new_switches in Hnew. cbv zeta in Hnew.
  assert (Hmulti : match experimental with
                   | Some f => PowerPlug.multiChannelRelay f
                               && negb (Nat.eqb (length channels) 0)
                   | None => false
                   end = false).
  { destruct Hcases as [ -> | [ (f & -> & ->) | -> ] ]; try reflexivity.
    destruct experimental as [ f | ]; [ apply andb_false_r | reflexivity ]. }
  rewrite Hmulti in Hnew. destruct Hnew as [Hsw Hps].
  split; [ exact Hsw | split; [ | reflexivity ] ].
  rewrite Hps by discriminate. apply lookup_insert_eq.
Qed.

Lemma plug_without_channels_has_one_switch_witness :
  match PowerPlug.new PlugSample.no_sensor "plug.local"
          (Some (PowerPlug.Flags false false)) PlugSample.metered [1; 2; 3] with
  | (Fulfilled d, _) => map PowerPlug.id (PowerPlug.onOffProperties d) = ["on"]
  | (Rejected _, _) => False
  end.
Proof.
  destruct (PowerPlug.new PlugSample.no_sensor "plug.local"
              (Some (PowerPlug.Flags false false)) PlugSample.metered [1; 2; 3])
    as [[ d | e ] log] eqn:E.
  - destruct (plug_without_channels_has_one_switch PlugSample.no_sensor "plug.local"
                (Some (PowerPlug.Flags false false)) PlugSample.metered [1; 2; 3] d log)
      as (Hsw & _); [ | exact E | now rewrite Hsw ].
    right; left. now exists (PowerPlug.Flags false false).
  - vm_compute in E. discriminate.
Defined.

(** ** Polling the device *)

Lemma updateValue_wire (net : transport) (w : world Plug.OnOffProperty) :
  wire (snd (Plug.updateValue net w))
  = wire w ++ [Get ("Power" +:+ Plug.channel (fields (self w)))].
Proof.
  unfold Plug.updateValue, bind, call_getStatus, await, get_self, put_fields,
    setCachedValueAndNotify, debug, ret; simpl.
  destruct (getStatus net _) as [r | e]; simpl; [ | reflexivity ].
  destruct (json_body r) as [j | e]; simpl; [ | reflexivity ].
  destruct (member "POWER" j) as [v | e]; simpl; [ | reflexivity ].
  destruct (loose_eq_ON v) as [b | e]; simpl; [ | reflexivity ].
  destruct (Plug.differs _ b); reflexivity.
Qed.

Lemma update_switches_spec (net : transport) (switches : list PowerPlug.on_off) :
  let '(switches', lines, sent, errors) := PowerPlug.update_switches net switches in
  map PowerPlug.id switches' = map PowerPlug.id switches
  /\ sent = map PowerPlug.status_query switches.
Proof.
  induction switches as [ | p rest IH ]; simpl; [ now split | ].
  destruct (PowerPlug.update_switches net rest) as [[[rest' lines] sent] errors].
  destruct IH as [Hids Hsent]. simpl. split; [ now rewrite Hids | ].
  rewrite Hsent.
  destruct (detach_frame (Plug.updateValue net) (World (PowerPlug.switch p) [] [] []))
    as [Hw _].
  rewrite Hw, updateValue_wire. reflexivity.
Qed.

Lemma poll_shape (net : PowerPlug.plug_transport) (r : PowerPlug.running) :
  PowerPlug.shape (PowerPlug.plug (snd (PowerPlug.poll net r)))
  = PowerPlug.shape (PowerPlug.plug r).
Proof.
  unfold PowerPlug.poll.
  pose proof (update_switches_spec (PowerPlug.api net)
                (PowerPlug.onOffProperties (PowerPlug.plug r))) as Hspec.
  destruct (PowerPlug.update_switches _ _) as [[[switches lines] sent] errors].
  destruct Hspec as [Hids _].
  destruct (PowerPlug.getData net) as [ data | e ].
  - match goal with
    | |- context [PowerPlug.updatePowerProperties data ?d] =>
        pose proof (updatePowerProperties_keeps data d) as Hkeep;
        destruct (PowerPlug.updatePowerProperties data d) as [outcome d']
    end.
    cbv zeta in Hkeep. simpl in Hkeep.
    destruct Hkeep as (Hsw & Hps & _ & Hv & Hc & Hp & Ht).
    unfold PowerPlug.shape. simpl.
    rewrite Hsw, Hps, Ht, Hids.
    repeat f_equal; apply bool_decide_ext; assumption.
  - unfold PowerPlug.shape. simpl. now rewrite Hids.
Qed.

Lemma tick_shape (net : PowerPlug.plug_transport) (r : PowerPlug.running) :
  PowerPlug.shape (PowerPlug.plug (PowerPlug.tick net r))
  = PowerPlug.shape (PowerPlug.plug r).
Proof.
  unfold PowerPlug.tick. pose proof (poll_shape net r) as H.
  destruct (PowerPlug.poll net r) as [[ [] | e ] r']; exact H.
Qed.

(** X16.  Polling never changes what the device exposes.  Over any run of
    timer ticks, whatever the transport answers, the ids of the switches,
    the presence of the voltage, current, power and temperature
    properties, the telemetry name of the temperature and the property
    map are what the constructor left: a telemetry name that shows up in
    a later sample creates no property, and one that disappears removes
    none. *)
Theorem plug_shape_is_fixed_at_construction
  (nets : list PowerPlug.plug_transport) :
  forall r : PowerPlug.running,
    PowerPlug.shape
      (PowerPlug.plug (fold_left (fun r' net => PowerPlug.tick net r') nets r))
    = PowerPlug.shape (PowerPlug.plug r).
Proof.
  induction nets as [ | net later IH ]; intros r; simpl; [ reflexivity | ].
  rewrite IH. apply tick_shape.
Qed.

(** X17.  A poll of the device puts one status query per switch on the
    wire, in the order of the switches, and then asks for the telemetry.
    Its outcome does not depend on the status queries, whose promises are
    dropped: the poll is fulfilled exactly when the telemetry arrives and,
    if the device has a temperature property, the sample has something
    under its name; and when the telemetry request fails the telemetry
    properties are left as they were. *)
Theorem plug_poll_outcome (net : PowerPlug.plug_transport) (r : PowerPlug.running) :
  PowerPlug.traffic_sent (snd (PowerPlug.poll net r))
  = PowerPlug.traffic_sent r
    ++ map PowerPlug.status_query (PowerPlug.onOffProperties (PowerPlug.plug r))
    ++ [PowerPlug.GetData]
  /\ (fst (PowerPlug.poll net r) = Fulfilled tt <->
      exists data,
        PowerPlug.getData net = Fulfilled data
        /\ forall dataName p,
             PowerPlug.temperatureProperty (PowerPlug.plug r) = Some (dataName, p) ->
             is_Some (data !! dataName) \/ PowerPlug.inherited dataName = true)
  /\ (forall e, PowerPlug.getData net = Rejected e ->
        fst (PowerPlug.poll net r) = Rejected e
        /\ PowerPlug.telemetry (PowerPlug.plug (snd (PowerPlug.poll net r)))
           = PowerPlug.telemetry (PowerPlug.plug r)).
Proof.
  unfold PowerPlug.poll.
  pose proof (update_switches_spec (PowerPlug.api net)
                (PowerPlug.onOffProperties (PowerPlug.plug r))) as Hspec.
  destruct (PowerPlug.update_switches _ _) as [[[switches lines] sent] errors].
  destruct Hspec as [_ ->].
  destruct (PowerPlug.getData net) as [ data | e ].
  - unfold PowerPlug.updatePowerProperties. simpl.
    destruct (PowerPlug.temperatureProperty (PowerPlug.plug r)) as [[dataName p] | ] eqn:Ht.
    + unfold PowerPlug.value_under.
      destruct (data !! dataName) as [ sample | ] eqn:Hs; simpl.
      * split; [ reflexivity | split; [ | intros e He; discriminate ] ].
        split; [ intros _ | reflexivity ].
        exists data. split; [ reflexivity | ].
        intros n q Hn. injection Hn as <- <-. left. rewrite Hs. eauto.
      * destruct (PowerPlug.inherited dataName) eqn:Hi; simpl.
        -- split; [ reflexivity | split; [ | intros e He; discriminate ] ].
           split; [ intros _ | reflexivity ].
           exists data. split; [ reflexivity | ].
           intros n q Hn. injection Hn as <- <-. now right.
        -- split; [ reflexivity | split; [ | intros e He; discriminate ] ].
           split; [ discriminate | ].
           intros (data' & Hd & Hall). injection Hd as <-.
           destruct (Hall dataName p eq_refl) as [ [x Hx] | Hinh ]; congruence.
    + split; [ reflexivity | split; [ | intros e He; discriminate ] ].
      split; [ intros _ | reflexivity ].
      exists data. split; [ reflexivity | intros n q Hn; discriminate ].
  - simpl. split; [ reflexivity | split ].
    + split; [ discriminate | intros (data & Hd & _); discriminate ].
    + intros e' He. injection He as <-. now split.
Qed.

Lemma plug_poll_outcome_witness :
  match PlugSample.built with
  | (Fulfilled d, _) =>
      fst (PowerPlug.poll (PlugSample.answering Sample.down) (PlugSample.run d))
      = Rejected (NetworkError "ECONNREFUSED")
      /\ PowerPlug.telemetry
           (PowerPlug.plug (snd (PowerPlug.poll (PlugSample.answering Sample.down)
                                   (PlugSample.run d))))
         = PowerPlug.telemetry d
  | (Rejected _, _) => False
  end.
Proof.
  destruct PlugSample.built as [[ d | e ] log] eqn:E.
  - destruct (plug_poll_outcome (PlugSample.answering Sample.down) (PlugSample.run d))
      as (_ & _ & Hdown).
    apply (Hdown (NetworkError "ECONNREFUSED") eq_refl).
  - vm_compute in E. discriminate.
Defined.

Lemma updatePowerProperties_meters (data : gmap string PowerPlug.Data)
  (d : PowerPlug.device) :
  let d' := snd (PowerPlug.updatePowerProperties data d) in
  PowerPlug.voltageProperty d'
  = PowerPlug.metered (data !! "Voltage") (PowerPlug.voltageProperty d)
  /\ PowerPlug.currentProperty d'
     = PowerPlug.metered (data !! "Current") (PowerPlug.currentProperty d)
  /\ PowerPlug.powerProperty d'
     = PowerPlug.metered (data !! "Power") (PowerPlug.powerProperty d).
Proof.
  unfold PowerPlug.updatePowerProperties, PowerPlug.metered.
  destruct d as [n sw v p c t ps]; simpl.
  destruct t as [[dataName tp] | ]; [ destruct (PowerPlug.value_under dataName data) | ];
    simpl; repeat split;
    repeat match goal with
           | |- context [match ?x with _ => _ end] => destruct x
           end; reflexivity.
Qed.

Lemma updatePowerProperties_temperature (data : gmap string PowerPlug.Data)
  (d : PowerPlug.device) (dataName : string) (p : property jsval) :
  PowerPlug.temperatureProperty d = Some (dataName, p) ->
  match PowerPlug.value_under dataName data with
  | Fulfilled v =>
      fst (PowerPlug.updatePowerProperties data d) = Fulfilled tt
      /\ PowerPlug.temperatureProperty (snd (PowerPlug.updatePowerProperties data d))
         = Some (dataName, PowerPlug.notify v p)
  | Rejected e =>
      fst (PowerPlug.updatePowerProperties data d) = Rejected e
      /\ PowerPlug.temperatureProperty (snd (PowerPlug.updatePowerProperties data d))
         = Some (dataName, p)
  end.
Proof.
  intros Ht. destruct d as [n sw v pw c t ps]. simpl in Ht. subst t.
  unfold PowerPlug.updatePowerProperties. simpl.
  destruct (PowerPlug.value_under dataName data); simpl; now split.
Qed.

Lemma poll_with_data (net : PowerPlug.plug_transport) (r : PowerPlug.running)
  (data : gmap string PowerPlug.Data) :
  PowerPlug.getData net = Fulfilled data ->
  exists switches,
    let d := PowerPlug.plug r in
    let polled :=
      PowerPlug.Device (PowerPlug.name d) switches (PowerPlug.voltageProperty d)
        (PowerPlug.powerProperty d) (PowerPlug.currentProperty d)
        (PowerPlug.temperatureProperty d) (PowerPlug.properties d) in
    fst (PowerPlug.poll net r) = fst (PowerPlug.updatePowerProperties data polled)
    /\ PowerPlug.plug (snd (PowerPlug.poll net r))
       = snd (PowerPlug.updatePowerProperties data polled).
Proof.
  intros Hdata. unfold PowerPlug.poll.
  destruct (PowerPlug.update_switches _ _) as [[[switches lines] sent] errors].
  exists switches. rewrite Hdata. cbv zeta.
  now destruct (PowerPlug.updatePowerProperties data _).
Qed.

(** X18.  When the telemetry arrives, voltage, current and power are
    each handled alike and before the temperature: a property that
    exists caches and notifies the sample under its name on every poll,
    changed or not, keeps its cache when the sample has no such name, and
    a property that does not exist is not created.  This is done also
    when the temperature then fails: with nothing under the sensor's name
    the poll is rejected with a TypeError and the temperature keeps its
    cache, while the other three have been updated. *)
Theorem plug_telemetry_update
  (net : PowerPlug.plug_transport) (r : PowerPlug.running)
  (data : gmap string PowerPlug.Data) :
  PowerPlug.getData net = Fulfilled data ->
  let d := PowerPlug.plug r in
  let d' := PowerPlug.plug (snd (PowerPlug.poll net r)) in
  PowerPlug.voltageProperty d'
  = PowerPlug.metered (data !! "Voltage") (PowerPlug.voltageProperty d)
  /\ PowerPlug.currentProperty d'
     = PowerPlug.metered (data !! "Current") (PowerPlug.currentProperty d)
  /\ PowerPlug.powerProperty d'
     = PowerPlug.metered (data !! "Power") (PowerPlug.powerProperty d)
  /\ (forall dataName p,
        PowerPlug.temperatureProperty d = Some (dataName, p) ->
        data !! dataName = None ->
        PowerPlug.inherited dataName = false ->
        fst (PowerPlug.poll net r) = Rejected TypeError
        /\ PowerPlug.temperatureProperty d' = Some (dataName, p))
  /\ (forall dataName p sample,
        PowerPlug.temperatureProperty d = Some (dataName, p) ->
        data !! dataName = Some sample ->
        PowerPlug.temperatureProperty d'
        = Some (dataName, PowerPlug.notify (PowerPlug.data_value sample) p)).
Proof.
  intros Hdata. cbv zeta.
  destruct (poll_with_data net r data Hdata) as (switches & Hfst & Hplug).
  rewrite Hfst, Hplug.
  match goal with
  | |- context [PowerPlug.updatePowerProperties data ?d1] =>
      pose proof (updatePowerProperties_meters data d1) as Hmeters;
      pose proof (updatePowerProperties_temperature data d1) as Htemp
  end.
  cbv zeta in Hmeters. simpl in Hmeters, Htemp.
  destruct Hmeters as (Hv & Hc & Hp).
  split; [ exact Hv | split; [ exact Hc | split; [ exact Hp | split ] ] ].
  - intros dataName p Ht Hnone Hinh.
    specialize (Htemp dataName p Ht).
    unfold PowerPlug.value_under in Htemp. now rewrite Hnone, Hinh in Htemp.
  - intros dataName p sample Ht Hsome.
    specialize (Htemp dataName p Ht).
    unfold PowerPlug.value_under in Htemp. rewrite Hsome in Htemp. apply Htemp.
Qed.

Lemma plug_telemetry_update_witness :
  match PlugSample.built with
  | (Fulfilled d, _) =>
      let after :=
        PowerPlug.poll (PlugSample.answering (Fulfilled PlugSample.sensor_lost))
                       (PlugSample.run d) in
      fst after = Rejected TypeError
      /\ PowerPlug.temperatureProperty (PowerPlug.plug (snd after))
         = PowerPlug.temperatureProperty d
  | (Rejected _, _) => False
  end.
Proof.
  destruct PlugSample.built as [[ d | e ] log] eqn:E.
  - vm_compute in E. injection E as <- _.
    match goal with
    | |- let after := PowerPlug.poll ?net ?r in _ =>
        destruct (plug_telemetry_update net r PlugSample.sensor_lost eq_refl)
          as (_ & _ & _ & Hlost & _)
    end.
    cbv zeta. eapply Hlost; reflexivity.
  - vm_compute in E. discriminate.
Defined.

(** ** The temperature property at construction *)

Lemma new_temperature
  (find : gmap string PowerPlug.Data -> option (string * PowerPlug.Data))
  (id : string) (experimental : option PowerPlug.flags)
  (data : gmap string PowerPlug.Data) (channels : list nat) :
  let sensor :=
    match experimental with
    | Some f => if PowerPlug.temperatureSensor f then find data else None
    | None => None
    end in
  match sensor with
  | Some (dataName, sample) =>
      match PowerPlug.value_under dataName data with
      | Fulfilled v =>
          exists d,
            fst (PowerPlug.new find id experimental data channels) = Fulfilled d
            /\ PowerPlug.temperatureProperty d
               = Some (dataName,
                       Property (Some v) [PowerPlug.data_value sample; v])
      | Rejected e =>
          fst (PowerPlug.new find id experimental data channels) = Rejected e
      end
  | None =>
      exists d,
        fst (PowerPlug.new find id experimental data channels) = Fulfilled d
        /\ PowerPlug.temperatureProperty d = None
  end.
Proof.
  cbv zeta. unfold PowerPlug.new. cbv zeta.
  set (start := PowerPlug.Device _ [] None None None None ∅).
  set (multi := match experimental with
                | Some f => PowerPlug.multiChannelRelay f && _
                | None => false
                end).
  assert (Hkeeps : exists d0 log0,
             (if multi then PowerPlug.add_channels channels start []
              else (PowerPlug.add_on_off PowerPlug.single_switch start, [])) = (d0, log0)
             /\ PowerPlug.temperatureProperty d0 = None).
  { destruct multi.
    - pose proof (add_channels_spec channels start []) as Hspec. cbv zeta in Hspec.
      destruct (PowerPlug.add_channels channels start []) as [d0 log0].
      exists d0, log0. split; [ reflexivity | apply Hspec ].
    - eexists _, _. split; reflexivity. }
  destruct Hkeeps as (d0 & log0 & -> & Hnone).
  destruct d0 as [n sw v p c t ps]. simpl in Hnone. subst t.
  destruct experimental as [ f | ];
    [ destruct (PowerPlug.temperatureSensor f);
      [ destruct (find data) as [[dataName sample] | ] | ] | ].
  - unfold PowerPlug.updatePowerProperties.
    destruct (data !! "Voltage"), (data !! "Current"), (data !! "Power"); simpl;
      destruct (PowerPlug.value_under dataName data); simpl; eauto.
  - unfold PowerPlug.updatePowerProperties.
    destruct (data !! "Voltage"), (data !! "Current"), (data !! "Power"); simpl; eauto.
  - unfold PowerPlug.updatePowerProperties.
    destruct (data !! "Voltage"), (data !! "Current"), (data !! "Power"); simpl; eauto.
  - unfold PowerPlug.updatePowerProperties.
    destruct (data !! "Voltage"), (data !! "Current"), (data !! "Power"); simpl; eauto.
Qed.

(** X19.  The constructor creates a temperature property only when the
    temperature flag is set and a sensor is found, and then notifies it
    twice: with the sample the finder returned and again with the sample
    under the sensor's name.  If the initial data have nothing under that
    name the constructor throws a TypeError; in every other case,
    whatever the flags, the data and the channels, it returns a device. *)
Theorem plug_constructor_and_temperature
  (find : gmap string PowerPlug.Data -> option (string * PowerPlug.Data))
  (id : string) (experimental : option PowerPlug.flags)
  (data : gmap string PowerPlug.Data) (channels : list nat) :
  (forall f dataName sample,
      experimental = Some f -> PowerPlug.temperatureSensor f = true ->
      find data = Some (dataName, sample) ->
      (forall under, data !! dataName = Some under ->
         exists d,
           fst (PowerPlug.new find id experimental data channels) = Fulfilled d
           /\ PowerPlug.temperatureProperty d
              = Some (dataName,
                      Property (Some (PowerPlug.data_value under))
                               [PowerPlug.data_value sample; PowerPlug.data_value under]))
      /\ (data !! dataName = None -> PowerPlug.inherited dataName = false ->
          fst (PowerPlug.new find id experimental data channels) = Rejected TypeError))
  /\ ((experimental = None
       \/ (exists f, experimental = Some f /\ PowerPlug.temperatureSensor f = false)
       \/ find data = None) ->
      exists d,
        fst (PowerPlug.new find id experimental data channels) = Fulfilled d
        /\ PowerPlug.temperatureProperty d = None).
Proof.
  pose proof (new_temperature find id experimental data channels) as Hnew.
  cbv zeta in Hnew. split.
  - intros f dataName sample -> Hflag Hfind. rewrite Hflag, Hfind in Hnew.
    unfold PowerPlug.value_under in Hnew. split.
    + intros under Hunder. now rewrite Hunder in Hnew.
    + intros Hnone Hinh. now rewrite Hnone, Hinh in Hnew.
  - intros [ -> | [ (f & -> & Hoff) | Hfind ] ].
    + exact Hnew.
    + now rewrite Hoff in Hnew.
    + destruct experimental as [ f | ]; [ | exact Hnew ].
      destruct (PowerPlug.temperatureSensor f); [ now rewrite Hfind in Hnew | exact Hnew ].
Qed.

Lemma plug_constructor_and_temperature_witness :
  exists d,
    fst PlugSample.built = Fulfilled d
    /\ PowerPlug.temperatureProperty d
       = Some ("DS18B20",
               Property (Some (Some (JNum (Finite 21))))
                        [Some (JNum (Finite 21)); Some (JNum (Finite 21))]).
Proof.
  destruct (plug_constructor_and_temperature PlugSample.ds18b20 "plug.local"
              (Some PlugSample.all_flags) PlugSample.metered [1; 3]) as [Hsensor _].
  destruct (Hsensor PlugSample.all_flags "DS18B20" (PlugSample.degrees 21)
              eq_refl eq_refl eq_refl) as [Hfound _].
  apply (Hfound (PlugSample.degrees 21)). reflexivity.
Defined.

(** * Properties of the logger *)

Lemma logger_enabled_stays (calls : list Logger.call) :
  forall out,
    fold_left Logger.step calls (Logger.ConsoleLog, out)
    = (Logger.ConsoleLog, out ++ Logger.debugged calls).
Proof.
  induction calls as [ | c later IH ]; intros out; simpl.
  - now rewrite app_nil_r.
  - destruct c as [ [] | m ps ]; unfold Logger.step at 2, Logger.setup, Logger.debug;
      simpl; rewrite IH; try reflexivity.
    now rewrite <- app_assoc.
Qed.

Lemma logger_silent_stays (calls : list Logger.call) :
  Forall (fun c => c <> Logger.Setup true) calls ->
  fold_left Logger.step calls (Logger.Silent, []) = (Logger.Silent, []).
Proof.
  induction calls as [ | c later IH ]; intros Hall; simpl; [ reflexivity | ].
  inversion Hall as [ | ? ? Hc Hlater ]; subst.
  destruct c as [ [] | m ps ]; unfold Logger.step at 2, Logger.setup, Logger.debug;
    simpl; try (now apply IH). congruence.
Qed.

(** X20.  The logger prints nothing until [setup] is called with true;
    from the first such call on, every [debug] call reaches the console,
    as the message and one array holding the other arguments, and no
    later call of [setup], with false either, switches the output off
    again. *)
Theorem logger_prints_from_first_enabling_setup (before later : list Logger.call) :
  Forall (fun c => c <> Logger.Setup true) before ->
  Logger.run before = (Logger.Silent, [])
  /\ Logger.run (before ++ Logger.Setup true :: later)
     = (Logger.ConsoleLog, Logger.debugged later).
Proof.
  intros Hquiet. unfold Logger.run. split.
  - now apply logger_silent_stays.
  - rewrite fold_left_app, (logger_silent_stays before Hquiet). simpl.
    now rewrite logger_enabled_stays.
Qed.

Lemma logger_prints_from_first_enabling_setup_witness :
  Logger.run [Logger.Debug (Some (JStr "lost")) []; Logger.Setup false;
              Logger.Setup true; Logger.Debug (Some (JStr "first")) [];
              Logger.Setup false; Logger.Debug (Some (JStr "second")) [JNull]]
  = (Logger.ConsoleLog,
     [Logger.Printed (Some (JStr "first")) [];
      Logger.Printed (Some (JStr "second")) [JNull]]).
Proof.
  apply (logger_prints_from_first_enabling_setup
           [Logger.Debug (Some (JStr "lost")) []; Logger.Setup false]
           [Logger.Debug (Some (JStr "first")) []; Logger.Setup false;
            Logger.Debug (Some (JStr "second")) [JNull]]).
  repeat constructor; discriminate.
Defined.

(** * Properties of the light devices *)

Lemma light_property_keys (l : Device.light) (k : string) (q : Device.property_class) :
  Device.properties l !! k = Some q -> Device.name q = k.
Proof.
  destruct l; unfold Device.properties, Device.ColorCtLight_new, Device.ColorLight_new,
    Device.ColorTemperatureLight_new, Device.DimmableLight_new, Device.addProperty;
    intros H;
    repeat (apply lookup_insert_Some in H as [ [<- <-] | [_ H] ]; [ reflexivity | ]);
    rewrite lookup_empty in H; discriminate.
Qed.

(** X21.  The property map of a light device is keyed by the properties'
    own names, and each class keeps every property of the class it
    extends under the same name: a constructor adds to the inherited map
    and overwrites nothing in it. *)
Theorem light_classes_extend_their_parent (l p : Device.light) :
  Device.parent l = Some p ->
  Device.properties p ⊆ Device.properties l
  /\ (forall k q, Device.properties l !! k = Some q -> Device.name q = k)
  /\ size (Device.properties p) < size (Device.properties l).
Proof.
  intros Hparent. split; [ | split ].
  - destruct l; simpl in Hparent; try discriminate; injection Hparent as <-;
      unfold Device.properties, Device.ColorCtLight_new, Device.ColorLight_new,
        Device.ColorTemperatureLight_new, Device.addProperty.
    + now apply insert_subseteq.
    + now apply insert_subseteq.
    + etransitivity; [ | apply insert_subseteq; reflexivity ].
      now apply insert_subseteq.
  - apply light_property_keys.
  - destruct l; simpl in Hparent; try discriminate; injection Hparent as <-;
      vm_compute; lia.
Qed.

Lemma light_classes_extend_their_parent_witness :
  Device.properties Device.ColorLight ⊆ Device.properties Device.ColorCtLight.
Proof.
  apply (light_classes_extend_their_parent Device.ColorCtLight Device.ColorLight).
  reflexivity.
Defined.
